(** * xoscar: actor-call context and profiling registry

    A shallow embedding of
      - [xoscar/profiling.py]: the profiling options, [_CallStats] and the
        [_ProfilingData] registry ([init], [pop], [collect_actor_call]);
      - [xoscar/backends/context.py]: [MarsActorContext] with its
        cancellation-safe [_wait] and the operations built on it
        ([send], [cancel], [actor_ref], [kill_actor],
        [wait_actor_pool_recovered], ...);
    together with the fragment of Python they rely on (equality and
    ordering of values, [heapq], insertion-ordered dictionaries), and a
    model of the percentile collector exercised by
    [metrics/tests/test_metric_api.py].

    Mutable objects are threaded explicitly: an operation maps the state
    before to the state after and an outcome, which is a value or a raised
    exception.  The transport, the remote pools and the caller's
    cancellations are an environment that answers the calls the context
    makes; the calls made are logged in the state. *)

From Stdlib Require Import List ZArith QArith Bool String Ascii Lia Arith.
From Stdlib Require Import Permutation Sorted.
Import ListNotations.

Set Implicit Arguments.
Unset Strict Implicit.

Local Open Scope string_scope.
Local Open Scope list_scope.
Local Open Scope nat_scope.

(** ** Exceptions and outcomes *)

Inductive exn : Type :=
| CancelledError
| CannotCancelTask
| TypeError
| ValueError (msg : string)
| IndexError
| KeyError
| AttributeError
| UnicodeDecodeError
| RemoteError (name : string).

Inductive outcome (A : Type) : Type :=
| Ret (a : A)
| Raise (e : exn).

Arguments Ret {A} a.
Arguments Raise {A} e.

Definition is_ret {A} (o : outcome A) : bool :=
  match o with Ret _ => true | Raise _ => false end.

(** ** Python values *)

Record ActorRef : Type := mkActorRef { address : string; uid : string }.

(** Floats are represented by their rational value (every finite double is
    one); [str] and [bytes] are byte strings. *)
#[warnings="-register-all"]
Inductive pyval : Type :=
| PyNone
| PyBool (b : bool)
| PyInt (z : Z)
| PyFloat (q : Q)
| PyStr (s : string)
| PyBytes (s : string)
| PyTuple (items : list pyval)
| PyList (items : list pyval)
| PyDict (items : list (pyval * pyval))
| PyActorRef (r : ActorRef).

Definition as_num (v : pyval) : option Q :=
  match v with
  | PyBool b => Some (inject_Z (if b then 1 else 0))
  | PyInt z => Some (inject_Z z)
  | PyFloat q => Some q
  | _ => None
  end.

Definition ActorRef_eqb (r1 r2 : ActorRef) : bool :=
  String.eqb (address r1) (address r2) && String.eqb (uid r1) (uid r2).

(** [a == b].  Numbers compare by value across [bool], [int] and [float];
    sequences compare element-wise; dictionaries compare as mappings. *)
Fixpoint py_eq (a b : pyval) {struct a} : bool :=
  match a, b with
  | PyNone, PyNone => true
  | PyStr s, PyStr t => String.eqb s t
  | PyBytes s, PyBytes t => String.eqb s t
  | PyTuple l1, PyTuple l2
  | PyList l1, PyList l2 =>
      (fix eq_items (l1 l2 : list pyval) {struct l1} : bool :=
         match l1, l2 with
         | [], [] => true
         | x :: l1', y :: l2' => py_eq x y && eq_items l1' l2'
         | _, _ => false
         end) l1 l2
  | PyDict d1, PyDict d2 =>
      Nat.eqb (List.length d1) (List.length d2) &&
      (fix included (d : list (pyval * pyval)) {struct d} : bool :=
         match d with
         | [] => true
         | (k, v) :: d' =>
             (fix find (e : list (pyval * pyval)) : bool :=
                match e with
                | [] => false
                | (k', v') :: e' => if py_eq k k' then py_eq v v' else find e'
                end) d2 && included d'
         end) d1
  | PyActorRef r1, PyActorRef r2 => ActorRef_eqb r1 r2
  | _, _ =>
      match as_num a, as_num b with
      | Some x, Some y => Qeq_bool x y
      | _, _ => false
      end
  end.

Definition Qltb (x y : Q) : bool :=
  match Qcompare x y with Lt => true | _ => false end.

(** [a < b].  Ordering is defined between numbers, between two [str], two
    [bytes], two tuples and two lists; every other pair raises [TypeError].
    Sequences are ordered by their first differing pair of items (found
    with [==]), and by length when one is a prefix of the other. *)
Fixpoint py_lt (a b : pyval) {struct a} : outcome bool :=
  match a, b with
  | PyStr s, PyStr t => Ret (String.ltb s t)
  | PyBytes s, PyBytes t => Ret (String.ltb s t)
  | PyTuple l1, PyTuple l2
  | PyList l1, PyList l2 =>
      (fix lt_items (l1 l2 : list pyval) {struct l1} : outcome bool :=
         match l1, l2 with
         | [], [] => Ret false
         | [], _ :: _ => Ret true
         | _ :: _, [] => Ret false
         | x :: l1', y :: l2' =>
             if py_eq x y then lt_items l1' l2' else py_lt x y
         end) l1 l2
  | _, _ =>
      match as_num a, as_num b with
      | Some x, Some y => Ret (Qltb x y)
      | _, _ => Raise TypeError
      end
  end.

(** [hash(v)] succeeds: lists and dictionaries are unhashable, a tuple is
    hashable when all its items are. *)
Fixpoint hashable (v : pyval) : bool :=
  match v with
  | PyList _ | PyDict _ => false
  | PyTuple l =>
      (fix all (l : list pyval) : bool :=
         match l with [] => true | x :: l' => hashable x && all l' end) l
  | _ => true
  end.

(** [v[0]]. *)
Definition getitem0 (v : pyval) : outcome pyval :=
  match v with
  | PyTuple l | PyList l =>
      match l with x :: _ => Ret x | [] => Raise IndexError end
  | PyStr s =>
      match s with String c _ => Ret (PyStr (String c "")) | EmptyString => Raise IndexError end
  | PyBytes s =>
      match s with
      | String c _ => Ret (PyInt (Z.of_nat (nat_of_ascii c)))
      | EmptyString => Raise IndexError
      end
  | PyDict d =>
      match find (fun kv => py_eq (fst kv) (PyInt 0)) d with
      | Some kv => Ret (snd kv)
      | None => Raise KeyError
      end
  | _ => Raise TypeError
  end.

(** ** Insertion-ordered dictionaries

    A Python [dict] is an association list in insertion order with at most
    one entry per key; assignment to a present key keeps its position. *)

Section Dict.
Variables (K V : Type) (eqb : K -> K -> bool).

Definition dict : Type := list (K * V).

Fixpoint dict_get (d : dict) (k : K) : option V :=
  match d with
  | [] => None
  | (k', v) :: d' => if eqb k' k then Some v else dict_get d' k
  end.

(** [d[k] = v] *)
Fixpoint dict_set (d : dict) (k : K) (v : V) : dict :=
  match d with
  | [] => [(k, v)]
  | (k', v') :: d' =>
      if eqb k' k then (k', v) :: d' else (k', v') :: dict_set d' k v
  end.

(** the dictionary left by [d.pop(k, None)] *)
Definition dict_del (d : dict) (k : K) : dict :=
  filter (fun kv => negb (eqb (fst kv) k)) d.

Definition dict_keys (d : dict) : list K := map fst d.
Definition dict_values (d : dict) : list V := map snd d.

(** [d.update(e)] *)
Definition dict_update (d e : dict) : dict :=
  fold_left (fun acc kv => dict_set acc (fst kv) (snd kv)) e d.
End Dict.

Arguments dict_del : simpl never.
Arguments dict_update : simpl never.

(** ** [heapq]

    The algorithms of the standard library's [heapq] module (its reference
    implementation, [Lib/heapq.py]).  The list is mutated in place, so every
    operation returns the list as it stands when the operation ends, also
    when a comparison raises midway. *)

Section Heapq.
Variable T : Type.
(** [a < b]; may raise *)
Variable lt : T -> T -> outcome bool.

(** [heap[pos] = x], for a position in range *)
Fixpoint setitem (heap : list T) (pos : nat) (x : T) : list T :=
  match heap, pos with
  | [], _ => []
  | _ :: heap', O => x :: heap'
  | h :: heap', S pos' => h :: setitem heap' pos' x
  end.

(** The [while pos > startpos] loop of [_siftdown] followed by the final
    [heap[pos] = newitem]; [pos] decreases at every turn. *)
Fixpoint _siftdown_loop (fuel : nat) (heap : list T) (newitem : T)
         (startpos pos : nat) : list T * outcome unit :=
  match fuel with
  | O => (setitem heap pos newitem, Ret tt)
  | S fuel' =>
      if startpos <? pos then
        let parentpos := Nat.div2 (pos - 1) in
        match nth_error heap parentpos with
        | None => (heap, Raise IndexError)
        | Some parent =>
            match lt newitem parent with
            | Raise e => (heap, Raise e)
            | Ret true =>
                _siftdown_loop fuel' (setitem heap pos parent) newitem
                               startpos parentpos
            | Ret false => (setitem heap pos newitem, Ret tt)
            end
        end
      else (setitem heap pos newitem, Ret tt)
  end.

Definition _siftdown (heap : list T) (startpos pos : nat)
  : list T * outcome unit :=
  match nth_error heap pos with
  | None => (heap, Raise IndexError)
  | Some newitem => _siftdown_loop pos heap newitem startpos pos
  end.

(** [heap.append(item); _siftdown(heap, 0, len(heap)-1)] *)
Definition heappush (heap : list T) (item : T) : list T * outcome unit :=
  let heap1 := heap ++ [item] in
  _siftdown heap1 0 (List.length heap1 - 1).

(** The [while childpos < endpos] loop of [_siftup]: the smaller child
    moves up until a leaf is reached; returns the leaf position. *)
Fixpoint _siftup_loop (fuel : nat) (heap : list T) (endpos pos : nat)
  : list T * outcome nat :=
  match fuel with
  | O => (heap, Ret pos)
  | S fuel' =>
      let childpos := 2 * pos + 1 in
      if childpos <? endpos then
        let rightpos := childpos + 1 in
        let smaller : outcome nat :=
          if rightpos <? endpos then
            match nth_error heap childpos, nth_error heap rightpos with
            | Some c, Some r =>
                match lt c r with
                | Ret b => Ret (if b then childpos else rightpos)
                | Raise e => Raise e
                end
            | _, _ => Raise IndexError
            end
          else Ret childpos in
        match smaller with
        | Raise e => (heap, Raise e)
        | Ret childpos' =>
            match nth_error heap childpos' with
            | None => (heap, Raise IndexError)
            | Some c => _siftup_loop fuel' (setitem heap pos c) endpos childpos'
            end
        end
      else (heap, Ret pos)
  end.

Definition _siftup (heap : list T) (pos : nat) : list T * outcome unit :=
  let endpos := List.length heap in
  let startpos := pos in
  match nth_error heap pos with
  | None => (heap, Raise IndexError)
  | Some newitem =>
      match _siftup_loop (endpos - pos) heap endpos pos with
      | (heap1, Raise e) => (heap1, Raise e)
      | (heap1, Ret pos1) =>
          _siftdown (setitem heap1 pos1 newitem) startpos pos1
      end
  end.

(** [returnitem = heap[0]; heap[0] = item; _siftup(heap, 0)] *)
Definition heapreplace (heap : list T) (item : T) : list T * outcome T :=
  match heap with
  | [] => (heap, Raise IndexError)
  | returnitem :: _ =>
      match _siftup (setitem heap 0 item) 0 with
      | (heap1, Ret _) => (heap1, Ret returnitem)
      | (heap1, Raise e) => (heap1, Raise e)
      end
  end.
End Heapq.

(** ** State and exceptions

    Code that mutates an object and may raise is a function from the state
    before to the state after and an outcome; a raise keeps the mutations
    made so far. *)

Definition M (S A : Type) : Type := S -> S * outcome A.

Definition ret {S A} (a : A) : M S A := fun s => (s, Ret a).
Definition raise {S A} (e : exn) : M S A := fun s => (s, Raise e).
Definition lift {S A} (o : outcome A) : M S A := fun s => (s, o).
Definition get {S} : M S S := fun s => (s, Ret s).
Definition modify {S} (f : S -> S) : M S unit := fun s => (f s, Ret tt).

Definition bind {S A B} (m : M S A) (k : A -> M S B) : M S B :=
  fun s =>
    match m s with
    | (s', Ret a) => k a s'
    | (s', Raise e) => (s', Raise e)
    end.

(** [try: m  except <matching e>: h e] -- a raise inside [h] propagates *)
Definition try_except {S A} (m : M S A) (handles : exn -> bool)
           (h : exn -> M S A) : M S A :=
  fun s =>
    match m s with
    | (s', Raise e) => if handles e then h e s' else (s', Raise e)
    | r => r
    end.

Declare Scope monad_scope.
Delimit Scope monad_scope with monad.
Notation "x <- m ;; k" := (bind m (fun x => k))
  (at level 61, m at next level, right associativity) : monad_scope.
Notation "m ;;; k" := (bind m (fun _ => k))
  (at level 61, right associativity) : monad_scope.
Local Open Scope monad_scope.

(** ** The Python runtime the module reads

    The process environment and the built-in conversions whose full
    definition lies outside the repository. *)

Record Runtime : Type := {
  environ : list (string * string);       (* os.environ *)
  int_of_str : string -> outcome Z;       (* int(s) on text *)
  float_of_str : string -> outcome Q;     (* float(s) on text *)
  format : pyval -> string;               (* f"{v}" *)
  decode_utf8 : string -> outcome string  (* b.decode('utf-8') *)
}.

(** [int(v)]: numbers are truncated towards zero *)
Definition py_int (rt : Runtime) (v : pyval) : outcome pyval :=
  match v with
  | PyBool b => Ret (PyInt (if b then 1 else 0))
  | PyInt z => Ret (PyInt z)
  | PyFloat q => Ret (PyInt (Z.quot (Qnum q) (Zpos (Qden q))))
  | PyStr s | PyBytes s =>
      match int_of_str rt s with Ret z => Ret (PyInt z) | Raise e => Raise e end
  | _ => Raise TypeError
  end.

(** [float(v)] *)
Definition py_float (rt : Runtime) (v : pyval) : outcome pyval :=
  match v with
  | PyBool b => Ret (PyFloat (inject_Z (if b then 1 else 0)))
  | PyInt z => Ret (PyFloat (inject_Z z))
  | PyFloat q => Ret (PyFloat q)
  | PyStr s | PyBytes s =>
      match float_of_str rt s with Ret q => Ret (PyFloat q) | Raise e => Raise e end
  | _ => Raise TypeError
  end.

(** [s.upper()] on ASCII text *)
Definition upper_ascii (c : ascii) : ascii :=
  let n := nat_of_ascii c in
  if (97 <=? n) && (n <=? 122) then ascii_of_nat (n - 32) else c.

Fixpoint upper (s : string) : string :=
  match s with
  | EmptyString => EmptyString
  | String c s' => String (upper_ascii c) (upper s')
  end.

(** The items produced by iterating over a value *)
Fixpoint chars (s : string) : list ascii :=
  match s with EmptyString => [] | String c s' => c :: chars s' end.

Definition iter_items (v : pyval) : outcome (list pyval) :=
  match v with
  | PyTuple l | PyList l => Ret l
  | PyStr s => Ret (map (fun c => PyStr (String c "")) (chars s))
  | PyBytes s => Ret (map (fun c => PyInt (Z.of_nat (nat_of_ascii c))) (chars s))
  | PyDict d => Ret (map fst d)
  | _ => Raise TypeError
  end.

(** ** Messages

    The envelopes built by the context and observed by the profiler; the
    fields are those the call sites pass and read. *)

Inductive ControlMessageType : Type := stop | get_config | wait_pool_recovered.

Inductive Message : Type :=
| HasActorMessage (message_id : nat) (actor_ref : ActorRef)
| DestroyActorMessage (message_id : nat) (actor_ref : ActorRef)
| ActorRefMessage (message_id : nat) (actor_ref : ActorRef)
| SendMessage (message_id : nat) (actor_ref : ActorRef) (content : pyval)
              (profiling_context : option string)
| TellMessage (message_id : nat) (actor_ref : ActorRef) (content : pyval)
| CancelMessage (message_id : nat) (address : string) (cancel_message_id : nat)
| ControlMessage (message_id : nat) (address : string)
                 (control_message_type : ControlMessageType) (content : pyval).

Inductive Response : Type :=
| ResultMessage (message_id : nat) (result : pyval)
| ErrorMessage (message_id : nat) (cause : exn).

Definition message_id_of (m : Message) : nat :=
  match m with
  | HasActorMessage i _ | DestroyActorMessage i _ | ActorRefMessage i _
  | SendMessage i _ _ _ | TellMessage i _ _ | CancelMessage i _ _
  | ControlMessage i _ _ _ => i
  end.

(** [message.actor_ref] and [message.content] *)
Definition actor_ref_of (m : Message) : outcome ActorRef :=
  match m with
  | HasActorMessage _ r | DestroyActorMessage _ r | ActorRefMessage _ r
  | SendMessage _ r _ _ | TellMessage _ r _ => Ret r
  | _ => Raise AttributeError
  end.

Definition content_of (m : Message) : outcome pyval :=
  match m with
  | SendMessage _ _ c _ | TellMessage _ _ c | ControlMessage _ _ _ c => Ret c
  | _ => Raise AttributeError
  end.

(** [sorted(l, key=..., reverse=True)]: stable, largest key first *)
Section SortedReverse.
Variables (A : Type) (key_gtb : A -> A -> bool).

Fixpoint insert_reverse (x : A) (l : list A) : list A :=
  match l with
  | [] => [x]
  | y :: l' => if key_gtb y x then y :: insert_reverse x l' else x :: l
  end.

Definition sorted_reverse (l : list A) : list A :=
  fold_right insert_reverse [] l.
End SortedReverse.

(** ** [profiling.py]: options *)

Module Profiling.

Inductive option_type : Type := TFloat | TInt.

Definition apply_type (rt : Runtime) (ty : option_type) (v : pyval)
  : outcome pyval :=
  match ty with TFloat => py_float rt v | TInt => py_int rt v end.

Record _ProfilingOptionDescriptor : Type := {
  _name : string;
  _type : option_type;
  _default : pyval
}.

Definition debug_interval_seconds : _ProfilingOptionDescriptor :=
  {| _name := "debug_interval_seconds"; _type := TFloat; _default := PyNone |}.
Definition slow_calls_duration_threshold : _ProfilingOptionDescriptor :=
  {| _name := "slow_calls_duration_threshold"; _type := TInt; _default := PyInt 1 |}.
Definition slow_subtasks_duration_threshold : _ProfilingOptionDescriptor :=
  {| _name := "slow_subtasks_duration_threshold"; _type := TInt; _default := PyInt 10 |}.

(** The option names declared by the class *)
Definition option_names : list string :=
  [_name debug_interval_seconds; _name slow_calls_duration_threshold;
   _name slow_subtasks_duration_threshold].

(** [type(self).__dict__.keys()]: the namespace of the class statement --
    the three descriptors and [__init__] -- and the entries every class
    receives ([__module__], [__dict__], [__weakref__], [__doc__]). *)
Definition class_dict_keys : list string :=
  "__module__" :: option_names ++ ["__init__"; "__dict__"; "__weakref__"; "__doc__"].

Definition is_none (v : pyval) : bool :=
  match v with PyNone => true | _ => false end.

(** [_ProfilingOptionDescriptor.__get__].  The value is cached on the
    instance after the first read; with a fixed environment and an options
    mapping that is not mutated, every read yields the same outcome. *)
Definition __get__ (rt : Runtime) (d : _ProfilingOptionDescriptor)
           (_options : dict pyval pyval) : outcome pyval :=
  let v := match dict_get py_eq _options (PyStr (_name d)) with
           | Some v => v
           | None => PyNone
           end in
  let v := if is_none v
           then match dict_get String.eqb (environ rt)
                               (String.append "MARS_PROFILING_" (upper (_name d))) with
                | Some s => PyStr s
                | None => _default d
                end
           else v in
  if is_none v then Ret v else apply_type rt (_type d) v.

(** [_ProfilingOptions.__init__]: returns the [_options] attribute *)
Definition _ProfilingOptions (options : pyval) : outcome (dict pyval pyval) :=
  match options with
  | PyDict d =>
      let invalid_keys :=
        filter (fun k => negb (existsb (fun n => py_eq k (PyStr n)) class_dict_keys))
               (dict_keys d) in
      match invalid_keys with
      | [] => Ret d
      | _ :: _ => Raise (ValueError "Invalid profiling options")
      end
  | _ =>
      if py_eq options (PyBool true) || py_eq options (PyBool false)
         || py_eq options PyNone
      then Ret []
      else Raise (ValueError "Invalid profiling options")
  end.

(** ** [profiling.py]: [_CallStats] *)

Record slow_call : Type := {
  sc_duration : Q;
  sc_uid : string;
  sc_address : string;
  sc_content : pyval
}.

(** The tuple [(duration, uid, address, content)] held in the heap *)
Definition slow_call_key (c : slow_call) : pyval :=
  PyTuple [PyFloat (sc_duration c); PyBytes (sc_uid c);
           PyStr (sc_address c); sc_content c].

Definition slow_call_lt (a b : slow_call) : outcome bool :=
  py_lt (slow_call_key a) (slow_call_key b).

(** Keys [(uid, method_name)] of the call counter *)
Definition call_key : Type := (string * pyval)%type.

Definition call_key_eqb (a b : call_key) : bool :=
  String.eqb (fst a) (fst b) && py_eq (snd a) (snd b).

Record _CallStats : Type := {
  _options : dict pyval pyval;
  _call_counter : dict call_key Z;
  _slow_calls : list slow_call
}.

(** [_CallStats.__init__] *)
Definition new_CallStats (options : dict pyval pyval) : _CallStats :=
  {| _options := options; _call_counter := []; _slow_calls := [] |}.

Definition set_call_counter (c : dict call_key Z) (self : _CallStats) :=
  {| _options := _options self; _call_counter := c;
     _slow_calls := _slow_calls self |}.

Definition set_slow_calls (h : list slow_call) (self : _CallStats) :=
  {| _options := _options self; _call_counter := _call_counter self;
     _slow_calls := h |}.

(** [self._call_counter[key] += 1]; a missing key counts as 0 *)
Definition counter_inc (c : dict call_key Z) (key : call_key) : dict call_key Z :=
  let old := match dict_get call_key_eqb c key with Some n => n | None => 0%Z end in
  dict_set call_key_eqb c key (old + 1)%Z.

(** The [try] block of [collect] with its [except TypeError: pass] *)
Definition insert_slow_call (slow_call_key : slow_call) : M _CallStats unit :=
  try_except
    (fun self =>
       if List.length (_slow_calls self) <? 10
       then let (h, r) := heappush slow_call_lt (_slow_calls self) slow_call_key in
            (set_slow_calls h self, r)
       else let (h, r) := heapreplace slow_call_lt (_slow_calls self) slow_call_key in
            (set_slow_calls h self,
             match r with Ret _ => Ret tt | Raise e => Raise e end))
    (fun e => match e with TypeError => true | _ => false end)
    (fun _ => ret tt).

Definition collect (rt : Runtime) (message : Message) (duration : Q)
  : M _CallStats unit :=
  actor_ref <- lift (actor_ref_of message) ;;
  content <- lift (content_of message) ;;
  content0 <- lift (getitem0 content) ;;
  let key : call_key := (uid actor_ref, content0) in
  (if hashable content0 then ret tt else raise TypeError) ;;;
  modify (fun self => set_call_counter (counter_inc (_call_counter self) key) self) ;;;
  self <- get ;;
  threshold <- lift (__get__ rt slow_calls_duration_threshold (_options self)) ;;
  below <- lift (py_lt (PyFloat duration) threshold) ;;
  if below : bool then ret tt
  else
    insert_slow_call
      {| sc_duration := duration; sc_uid := uid actor_ref;
         sc_address := address actor_ref; sc_content := content |}.

(** [method_name, _batch, args, kwargs = content] *)
Definition unpack4 (content : pyval)
  : outcome (pyval * pyval * pyval * pyval) :=
  match iter_items content with
  | Ret [a; b; c; d] => Ret (a, b, c, d)
  | Ret _ => Raise (ValueError "unpack")
  | Raise e => Raise e
  end.

Definition bind_o {A B} (o : outcome A) (k : A -> outcome B) : outcome B :=
  match o with Ret a => k a | Raise e => Raise e end.

(** The first loop of [to_dict], over [most_common(10)] *)
Fixpoint render_most_calls (rt : Runtime) (l : list (call_key * Z))
         (most_calls : dict pyval pyval) : outcome (dict pyval pyval) :=
  match l with
  | [] => Ret most_calls
  | ((uid, method_name), count) :: l' =>
      bind_o (decode_utf8 rt uid) (fun u =>
      render_most_calls rt l'
        (dict_set py_eq most_calls
           (PyStr (String.append u (String.append "." (format rt method_name))))
           (PyInt count)))
  end.

(** The second loop of [to_dict], over the slow calls, slowest first *)
Fixpoint render_slow_calls (rt : Runtime) (l : list slow_call)
         (slow_calls : dict pyval pyval) : outcome (dict pyval pyval) :=
  match l with
  | [] => Ret slow_calls
  | c :: l' =>
      bind_o (unpack4 (sc_content c)) (fun '(method_name, _, args, kwargs) =>
      bind_o (decode_utf8 rt (sc_uid c)) (fun u =>
      render_slow_calls rt l'
        (dict_set py_eq slow_calls
           (PyStr (String.concat ""
              ["["; sc_address c; "]"; u; "."; format rt method_name;
               "(args="; format rt args; ", kwargs="; format rt kwargs; ")"]))
           (PyFloat (sc_duration c)))))
  end.

Definition most_common (n : nat) (c : dict call_key Z) : list (call_key * Z) :=
  firstn n (sorted_reverse (fun a b => Z.ltb (snd b) (snd a)) c).

Definition to_dict (rt : Runtime) (self : _CallStats) : outcome (dict pyval pyval) :=
  bind_o (render_most_calls rt (most_common 10 (_call_counter self)) [])
    (fun most_calls =>
  bind_o (render_slow_calls rt
            (sorted_reverse (fun a b => Qltb (sc_duration b) (sc_duration a))
                            (_slow_calls self)) [])
    (fun slow_calls =>
  Ret [(PyStr "most_calls", PyDict most_calls);
       (PyStr "slow_calls", PyDict slow_calls)])).

(** ** [profiling.py]: [_ProfilingData] *)

Record _ProfilingData : Type := {
  _data : dict string (dict pyval pyval);
  _call_stats : dict string _CallStats;
  _debug_task : dict string nat
}.

(** [_ProfilingData.__init__] *)
Definition new_ProfilingData : _ProfilingData :=
  {| _data := []; _call_stats := []; _debug_task := [] |}.

(** The registry together with the event loop it starts tasks on: tasks
    are numbered in creation order, [cancelled] lists the tasks whose
    [cancel()] was called. *)
Record Process : Type := {
  registry : _ProfilingData;
  spawned : nat;
  cancelled : list nat
}.

Definition set_data f (p : Process) : Process :=
  {| registry := {| _data := f (_data (registry p));
                    _call_stats := _call_stats (registry p);
                    _debug_task := _debug_task (registry p) |};
     spawned := spawned p; cancelled := cancelled p |}.

Definition set_call_stats f (p : Process) : Process :=
  {| registry := {| _data := _data (registry p);
                    _call_stats := f (_call_stats (registry p));
                    _debug_task := _debug_task (registry p) |};
     spawned := spawned p; cancelled := cancelled p |}.

Definition set_debug_task f (p : Process) : Process :=
  {| registry := {| _data := _data (registry p);
                    _call_stats := _call_stats (registry p);
                    _debug_task := f (_debug_task (registry p)) |};
     spawned := spawned p; cancelled := cancelled p |}.

(** [asyncio.create_task(...)]: returns the new task's handle *)
Definition create_task : M Process nat :=
  fun p => ({| registry := registry p; spawned := S (spawned p);
               cancelled := cancelled p |}, Ret (spawned p)).

(** [task.cancel()] *)
Definition cancel_task (t : nat) : M Process unit :=
  modify (fun p => {| registry := registry p; spawned := spawned p;
                      cancelled := t :: cancelled p |}).

Definition empty_tree : dict pyval pyval :=
  [(PyStr "general", PyDict []); (PyStr "serialization", PyDict []);
   (PyStr "most_calls", PyDict []); (PyStr "slow_calls", PyDict []);
   (PyStr "band_subtasks", PyDict []); (PyStr "slow_subtasks", PyDict [])].

(** [_ProfilingData.init].  The debug interval is read once for the log
    line and once for the test that starts the debug task; the second read
    returns the cached value. *)
Definition init (rt : Runtime) (task_id : string) (options : pyval)
  : M Process unit :=
  options <- lift (_ProfilingOptions options) ;;
  interval <- lift (__get__ rt debug_interval_seconds options) ;;
  modify (set_data (fun d => dict_set String.eqb d task_id empty_tree)) ;;;
  modify (set_call_stats
            (fun d => dict_set String.eqb d task_id (new_CallStats options))) ;;;
  if is_none interval then ret tt
  else
    task <- create_task ;;
    modify (set_debug_task (fun d => dict_set String.eqb d task_id task)).

(** [_ProfilingData.pop] *)
Definition pop (rt : Runtime) (task_id : string)
  : M Process (option (dict pyval pyval)) :=
  p <- get ;;
  let debug_task := dict_get String.eqb (_debug_task (registry p)) task_id in
  modify (set_debug_task (fun d => dict_del String.eqb d task_id)) ;;;
  match debug_task with
  | Some t => cancel_task t
  | None => ret tt
  end ;;;
  let r := dict_get String.eqb (_data (registry p)) task_id in
  modify (set_data (fun d => dict_del String.eqb d task_id)) ;;;
  match r with
  | Some r =>
      match dict_get String.eqb (_call_stats (registry p)) task_id with
      | None => raise KeyError
      | Some stats =>
          modify (set_call_stats (fun d => dict_del String.eqb d task_id)) ;;;
          snapshot <- lift (to_dict rt stats) ;;
          ret (Some (dict_update py_eq r snapshot))
      end
  | None => ret None
  end.

(** The loop [for stats in self._call_stats.values(): stats.collect(...)];
    each [_CallStats] is mutated in place and a raise ends the loop. *)
Fixpoint collect_each (rt : Runtime) (message : Message) (duration : Q)
         (stats : dict string _CallStats) : dict string _CallStats * outcome unit :=
  match stats with
  | [] => ([], Ret tt)
  | (task_id, s) :: rest =>
      match collect rt message duration s with
      | (s', Ret _) =>
          let (rest', r) := collect_each rt message duration rest in
          ((task_id, s') :: rest', r)
      | (s', Raise e) => ((task_id, s') :: rest, Raise e)
      end
  end.

(** [type(message) is SendMessage or type(message) is TellMessage] *)
Definition is_send_or_tell (m : Message) : bool :=
  match m with
  | SendMessage _ _ _ _ | TellMessage _ _ _ => true
  | _ => false
  end.

(** [_ProfilingData.collect_actor_call] *)
Definition collect_actor_call (rt : Runtime) (message : Message) (duration : Q)
  : M _ProfilingData unit :=
  fun self =>
    match _call_stats self with
    | [] => (self, Ret tt)
    | _ :: _ =>
        if is_send_or_tell message then
          let (stats, r) := collect_each rt message duration (_call_stats self) in
          ({| _data := _data self; _call_stats := stats;
              _debug_task := _debug_task self |}, r)
        else (self, Ret tt)
    end.

(** The process after [pop task_id]: the task's entries are gone and its
    debug task, if it had one, is cancelled. *)
Definition popped (task_id : string) (p : Process) : Process :=
  {| registry :=
       {| _data := dict_del String.eqb (_data (registry p)) task_id;
          _call_stats := dict_del String.eqb (_call_stats (registry p)) task_id;
          _debug_task := dict_del String.eqb (_debug_task (registry p)) task_id |};
     spawned := spawned p;
     cancelled :=
       match dict_get String.eqb (_debug_task (registry p)) task_id with
       | Some t => t :: cancelled p
       | None => cancelled p
       end |}.

End Profiling.

(** ** [backends/context.py]: [MarsActorContext] *)

Module Context.

(** The two places where [_wait] suspends on the handle *)
Inductive await_point : Type := AtShield | AtFinal.

(** What lies outside the context: the transport and the remote pools
    ([reply]: what a dispatched call resolves to; a transport failure is a
    raise), the caller ([interrupted id p]: the task awaiting the handle of
    message [id] is cancelled while suspended at [p]), and the helpers of
    other modules. *)
Record Env : Type := {
  reply : string -> Message -> outcome Response;
  interrupted : nat -> await_point -> bool;
  create_actor_ref : ActorRef -> ActorRef;
  create_local_actor_ref : string -> string -> option ActorRef;
  detect_cycle_send : Message -> bool -> outcome unit
}.

(** The message ids handed out so far and the calls dispatched, oldest
    first, each with the address it was sent to. *)
Record World : Type := {
  next_message_id : nat;
  sent : list (string * Message)
}.

(** A pending handle, identified with what it holds once resolved: a
    response, or the exception set on it ([CancelledError] when the handle
    itself was cancelled). *)
Record Future : Type := { holds : outcome Response }.

(** [new_message_id()]: fresh per call *)
Definition new_message_id : M World nat :=
  fun w => ({| next_message_id := S (next_message_id w); sent := sent w |},
            Ret (next_message_id w)).

Definition dispatch (address : string) (message : Message) : M World unit :=
  modify (fun w => {| next_message_id := next_message_id w;
                      sent := sent w ++ [(address, message)] |}).

(** [await self._call(address, message)] *)
Definition _call (env : Env) (address : string) (message : Message)
  : M World Response :=
  dispatch address message ;;;
  lift (reply env address message).

(** [await self._call(address, message, wait=False)]: the handle holds
    what the call resolves to, a failure of the transport included. *)
Definition _call_nowait (env : Env) (address : string) (message : Message)
  : M World Future :=
  dispatch address message ;;;
  ret {| holds := reply env address message |}.

Definition _process_result_message (message : Response) : outcome pyval :=
  match message with
  | ResultMessage _ result => Ret result
  | ErrorMessage _ cause => Raise cause
  end.

(** [await asyncio.shield(future)] and [await future] in a task that may
    be cancelled while it is suspended there *)
Definition await_handle (env : Env) (p : await_point) (future : Future)
           (message : Message) : M World Response :=
  if interrupted env (message_id_of message) p
  then raise CancelledError
  else lift (holds future).

Definition cancel (env : Env) (address : string) (cancel_message_id : nat)
  : M World pyval :=
  id <- new_message_id ;;
  let message := CancelMessage id address cancel_message_id in
  result <- _call env address message ;;
  lift (_process_result_message result).

Definition is_CancelledError (e : exn) : bool :=
  match e with CancelledError => true | _ => false end.

Definition is_CannotCancelTask (e : exn) : bool :=
  match e with CannotCancelTask => true | _ => false end.

(** [_wait]: one [try] with two handlers, [except asyncio.CancelledError]
    and the bare [except]; what a handler raises leaves the statement. *)
Definition _wait (env : Env) (future : Future) (address : string)
           (message : Message) : M World Response :=
  try_except
    (await_handle env AtShield future message ;;; ret tt)
    (fun _ => true)
    (fun e =>
       if is_CancelledError e then
         try_except
           (cancel env address (message_id_of message) ;;; ret tt)
           is_CannotCancelTask
           (fun _ => raise CancelledError)
       else ret tt) ;;;
  await_handle env AtFinal future message.

Definition has_actor (env : Env) (actor_ref : ActorRef) : M World pyval :=
  id <- new_message_id ;;
  let message := HasActorMessage id actor_ref in
  future <- _call_nowait env (address actor_ref) message ;;
  result <- _wait env future (address actor_ref) message ;;
  lift (_process_result_message result).

Definition destroy_actor (env : Env) (actor_ref : ActorRef) : M World pyval :=
  id <- new_message_id ;;
  let message := DestroyActorMessage id actor_ref in
  future <- _call_nowait env (address actor_ref) message ;;
  result <- _wait env future (address actor_ref) message ;;
  lift (_process_result_message result).

Definition actor_ref (env : Env) (arg : ActorRef) : M World pyval :=
  let actor_ref := create_actor_ref env arg in
  match create_local_actor_ref env (address actor_ref) (uid actor_ref) with
  | Some local_actor_ref => ret (PyActorRef local_actor_ref)
  | None =>
      id <- new_message_id ;;
      let message := ActorRefMessage id actor_ref in
      future <- _call_nowait env (address actor_ref) message ;;
      result <- _wait env future (address actor_ref) message ;;
      lift (_process_result_message result)
  end.

(** [ref.address] on a value *)
Definition address_attr (v : pyval) : outcome string :=
  match v with PyActorRef r => Ret (address r) | _ => Raise AttributeError end.

(** An address handed to the transport is text *)
Definition as_address (v : pyval) : outcome string :=
  match v with PyStr a => Ret a | _ => Raise TypeError end.

Definition get_main_pool_address (env : Env) (address : string)
  : M World pyval :=
  id <- new_message_id ;;
  let control_message :=
    ControlMessage id address get_config (PyStr "main_pool_address") in
  result <- _call env address control_message ;;
  lift (_process_result_message result).

Definition kill_actor (env : Env) (actor_ref_ : ActorRef) (force : bool)
  : M World pyval :=
  main_address <- get_main_pool_address env (address actor_ref_) ;;
  real_actor_ref <- actor_ref env actor_ref_ ;;
  real_address <- lift (address_attr real_actor_ref) ;;
  if py_eq (PyStr real_address) main_address
  then raise (ValueError "Cannot kill actor on main pool")
  else
    id <- new_message_id ;;
    let stop_message :=
      ControlMessage id real_address stop (PyTuple [PyFloat 3; PyBool force]) in
    main <- lift (as_address main_address) ;;
    result <- _call env main stop_message ;;
    lift (_process_result_message result).

(** [send]; the timeout diagnostic around the body only logs. *)
Definition send (env : Env) (actor_ref : ActorRef) (message : pyval)
           (wait_response : bool) (profiling_context : option string)
  : M World (pyval + Future) :=
  id <- new_message_id ;;
  let send_message := SendMessage id actor_ref message profiling_context in
  lift (detect_cycle_send env send_message wait_response) ;;;
  future <- _call_nowait env (address actor_ref) send_message ;;
  if wait_response then
    result <- _wait env future (address actor_ref) send_message ;;
    v <- lift (_process_result_message result) ;;
    ret (inl v)
  else ret (inr future).

Definition wait_actor_pool_recovered (env : Env) (address : string)
           (main_address : option string) : M World unit :=
  main_address <-
    match main_address with
    | None => get_main_pool_address env address
    | Some a => ret (PyStr a)
    end ;;
  if py_eq (PyStr address) main_address then ret tt
  else
    id <- new_message_id ;;
    let control_message :=
      ControlMessage id address wait_pool_recovered PyNone in
    main <- lift (as_address main_address) ;;
    result <- _call env main control_message ;;
    _ <- lift (_process_result_message result) ;;
    ret tt.

(** [isinstance(m, ControlMessage)] *)
Definition is_control (m : Message) : bool :=
  match m with ControlMessage _ _ _ _ => true | _ => false end.

Definition get_pool_config (env : Env) (address : string) : M World pyval :=
  id <- new_message_id ;;
  let control_message := ControlMessage id address get_config PyNone in
  result <- _call env address control_message ;;
  lift (_process_result_message result).

End Context.

(** ** The percentile collector *)

Module Metrics.

Local Open Scope Z_scope.

(** [ceil(a / 100)] *)
Definition ceil_div100 (a : Z) : Z := - ((- a) / 100).

Definition capacity_of (percentile window : Z) : Z :=
  ceil_div100 (window * (100 - percentile)).

(** Modelled from the spec: the percentile collector.  Its module
    ([metrics/api.py]) is not among the sources; only its test is.  The
    collector holds the [k] smallest samples seen so far -- here in
    ascending order, so that the current maximum is the last one held --,
    counts the samples and reports through its callback, whose invocations
    are logged in [reported], oldest first, each with the maximum held at
    that moment. *)
Record Percentile : Type := {
  percentile_type : Z;
  window : Z;
  held : list Z;
  samples_seen : nat;
  fired : bool;
  reported : list (option Z)
}.

Definition capacity (self : Percentile) : Z :=
  capacity_of (percentile_type self) (window self).

(** Modelled from the spec: construction validates [percentile_type >= 0]
    and [window >= 0], failing otherwise. *)
Definition new_Percentile (percentile window : Z) : outcome Percentile :=
  if (0 <=? percentile) && (0 <=? window)
  then Ret {| percentile_type := percentile; window := window; held := [];
              samples_seen := O; fired := false; reported := [] |}
  else Raise (ValueError "percentile").

Fixpoint insert_sorted (x : Z) (l : list Z) : list Z :=
  match l with
  | [] => [x]
  | y :: l' => if x <? y then x :: l else y :: insert_sorted x l'
  end.

Fixpoint maximum (l : list Z) : option Z :=
  match l with
  | [] => None
  | [m] => Some m
  | _ :: l' => maximum l'
  end.

(** Modelled from the spec: [record_data(value)] increments
    [samples_seen]; the value enters only if the structure has room or the
    value is smaller than the current maximum held (which then leaves);
    when [samples_seen] reaches [window] the callback is invoked with the
    current maximum and the collector is marked as fired; once fired,
    [record_data] is a no-op. *)
Definition record_data (value : Z) (self : Percentile) : Percentile :=
  if fired self then self
  else
    let seen := S (samples_seen self) in
    let held' :=
      if Z.of_nat (List.length (held self)) <? capacity self
      then insert_sorted value (held self)
      else match maximum (held self) with
           | Some m =>
               if value <? m
               then removelast (insert_sorted value (held self))
               else held self
           | None => held self
           end in
    if Z.of_nat seen =? window self
    then {| percentile_type := percentile_type self; window := window self;
            held := held'; samples_seen := seen; fired := true;
            reported := reported self ++ [maximum held'] |}
    else {| percentile_type := percentile_type self; window := window self;
            held := held'; samples_seen := seen; fired := false;
            reported := reported self |}.

(** Successive [record_data] calls *)
Definition record_all (self : Percentile) (samples : list Z) : Percentile :=
  fold_left (fun c x => record_data x c) samples self.



(** the samples [1..n] *)
Definition one_to (n : nat) : list Z := map Z.of_nat (seq 1 n).


End Metrics.

(** ** More of the Python fragment: truth values, addition, item access *)

(** [bool(v)] *)
Definition py_truthy (v : pyval) : bool :=
  match v with
  | PyNone => false
  | PyBool b => b
  | PyInt z => negb (Z.eqb z 0)
  | PyFloat q => negb (Qeq_bool q 0)
  | PyStr s | PyBytes s => negb (String.eqb s "")
  | PyTuple l | PyList l => match l with [] => false | _ :: _ => true end
  | PyDict d => match d with [] => false | _ :: _ => true end
  | PyActorRef _ => true
  end.

(** An [int] (or [bool]) as an integer *)
Definition as_int (v : pyval) : option Z :=
  match v with
  | PyBool b => Some (if b then 1 else 0)%Z
  | PyInt z => Some z
  | _ => None
  end.

(** [a + b] *)
Definition py_add (a b : pyval) : outcome pyval :=
  match a, b with
  | PyStr s, PyStr t => Ret (PyStr (String.append s t))
  | PyBytes s, PyBytes t => Ret (PyBytes (String.append s t))
  | PyTuple l1, PyTuple l2 => Ret (PyTuple (l1 ++ l2))
  | PyList l1, PyList l2 => Ret (PyList (l1 ++ l2))
  | _, _ =>
      match as_int a, as_int b with
      | Some x, Some y => Ret (PyInt (x + y))
      | _, _ =>
          match as_num a, as_num b with
          | Some x, Some y => Ret (PyFloat (Qplus x y))
          | _, _ => Raise TypeError
          end
      end
  end.

(** [target.get(key, default)] *)
Definition py_get (target key default : pyval) : outcome pyval :=
  match target with
  | PyDict d =>
      if hashable key
      then Ret (match dict_get py_eq d key with Some v => v | None => default end)
      else Raise TypeError
  | _ => Raise AttributeError
  end.

(** [target[key] = value] *)
Definition py_setitem (target key value : pyval) : outcome pyval :=
  match target with
  | PyDict d =>
      if hashable key then Ret (PyDict (dict_set py_eq d key value))
      else Raise TypeError
  | PyList l =>
      match as_int key with
      | Some i =>
          let i' := if (i <? 0)%Z then (i + Z.of_nat (List.length l))%Z else i in
          if ((0 <=? i') && (i' <? Z.of_nat (List.length l)))%Z
          then Ret (PyList (setitem l (Z.to_nat i') value))
          else Raise IndexError
      | None => Raise TypeError
      end
  | _ => Raise TypeError
  end.

(** ** [profiling.py]: the nested view of the registry *)

Module ProfilingView.
Import Profiling.

(** The object returned by [ProfilingData[item]].  A
    [ProfilingDataOperator] refers to its target; here it carries the keys
    that lead to the target from the registry and the target as it is when
    the operator is made.  A method called on [ProfilingData[item]] acts on
    the target in place, that is, on what the registry holds under these
    keys. *)
Inductive Operator : Type :=
| DummyOperator
| ProfilingDataOperator (path : list pyval) (_target : pyval).

(** [self._data.get(k, None)]; task ids are text *)
Definition data_get (self : _ProfilingData) (k : pyval) : outcome pyval :=
  if hashable k then
    Ret (match k with
         | PyStr task_id =>
             match dict_get String.eqb (_data self) task_id with
             | Some tree => PyDict tree
             | None => PyNone
             end
         | _ => PyNone
         end)
  else Raise TypeError.

(** The rest of the loop of [__getitem__], from the value [d] reached so
    far: the value the loop ends with ([None] once a key is missing). *)
Fixpoint descend (d : pyval) (key : list pyval) : outcome pyval :=
  match key with
  | [] => Ret d
  | k :: key' =>
      match py_get d k PyNone with
      | Raise e => Raise e
      | Ret v => if is_none v then Ret PyNone else descend v key'
      end
  end.

Definition item_keys (item : pyval) : list pyval :=
  match item with PyTuple l => l | _ => [item] end.

(** [_ProfilingData.__getitem__] *)
Definition __getitem__ (self : _ProfilingData) (item : pyval) : outcome Operator :=
  match item_keys item with
  | [] => Ret DummyOperator
  | k :: key' =>
      match data_get self k with
      | Raise e => Raise e
      | Ret d =>
          if is_none d then Ret DummyOperator
          else match descend d key' with
               | Raise e => Raise e
               | Ret v =>
                   if is_none v then Ret DummyOperator
                   else Ret (ProfilingDataOperator (item_keys item) v)
               end
      end
  end.

(** [ProfilingDataOperator.set] on a target: the target afterwards *)
Definition set (target key value : pyval) : outcome pyval :=
  py_setitem target key value.

(** [ProfilingDataOperator.inc] *)
Definition inc (target key value : pyval) : outcome pyval :=
  bind_o (py_get target key (PyInt 0)) (fun old =>
  bind_o (py_add old value) (fun new =>
  py_setitem target key new)).

(** [ProfilingDataOperator.nest]: the target afterwards and the sub-tree
    the new operator refers to *)
Definition nest (target key : pyval) : outcome (pyval * pyval) :=
  match target with
  | PyDict d =>
      if hashable key then
        match dict_get py_eq d key with
        | Some v =>
            match v with
            | PyDict _ => Ret (target, v)
            | _ => Raise TypeError
            end
        | None => Ret (PyDict (dict_set py_eq d key (PyDict [])), PyDict [])
        end
      else Raise TypeError
  | _ => Raise AttributeError
  end.

(** [ProfilingDataOperator.values] *)
Definition values (target : pyval) : outcome (list pyval) :=
  match target with
  | PyDict d => Ret (dict_values d)
  | _ => Raise AttributeError
  end.

(** [ProfilingDataOperator.empty] *)
Definition empty (target : pyval) : outcome bool :=
  match target with
  | PyDict d => Ret (Nat.eqb (List.length d) 0)
  | PyTuple l | PyList l => Ret (Nat.eqb (List.length l) 0)
  | PyStr s | PyBytes s => Ret (Nat.eqb (String.length s) 0)
  | _ => Raise TypeError
  end.

(** The value [d] with the value found under the keys [path] replaced *)
Fixpoint replace_at (d : pyval) (path : list pyval) (new : pyval) : pyval :=
  match path with
  | [] => new
  | k :: path' =>
      match d with
      | PyDict items =>
          match dict_get py_eq items k with
          | Some child =>
              PyDict (dict_set py_eq items k (replace_at child path' new))
          | None => d
          end
      | _ => d
      end
  end.

(** The registry after the target under [path] was mutated into [new] *)
Definition write_back (self : _ProfilingData) (path : list pyval) (new : pyval)
  : _ProfilingData :=
  match path with
  | PyStr task_id :: path' =>
      match dict_get String.eqb (_data self) task_id with
      | Some tree =>
          match replace_at (PyDict tree) path' new with
          | PyDict tree' =>
              {| _data := dict_set String.eqb (_data self) task_id tree';
                 _call_stats := _call_stats self;
                 _debug_task := _debug_task self |}
          | _ => self
          end
      | None => self
      end
  | _ => self
  end.

(** [self[item].set(key, value)] *)
Definition item_set (item key value : pyval) : M _ProfilingData unit :=
  fun self =>
    match __getitem__ self item with
    | Raise e => (self, Raise e)
    | Ret DummyOperator => (self, Ret tt)
    | Ret (ProfilingDataOperator path target) =>
        match set target key value with
        | Ret target' => (write_back self path target', Ret tt)
        | Raise e => (self, Raise e)
        end
    end.

(** [self[item].inc(key, value)] *)
Definition item_inc (item key value : pyval) : M _ProfilingData unit :=
  fun self =>
    match __getitem__ self item with
    | Raise e => (self, Raise e)
    | Ret DummyOperator => (self, Ret tt)
    | Ret (ProfilingDataOperator path target) =>
        match inc target key value with
        | Ret target' => (write_back self path target', Ret tt)
        | Raise e => (self, Raise e)
        end
    end.

(** [self[item].nest(key)]; [DummyOperator.nest] returns [DummyOperator] *)
Definition item_nest (item key : pyval) : M _ProfilingData Operator :=
  fun self =>
    match __getitem__ self item with
    | Raise e => (self, Raise e)
    | Ret DummyOperator => (self, Ret DummyOperator)
    | Ret (ProfilingDataOperator path target) =>
        match nest target key with
        | Ret (target', v) =>
            (write_back self path target',
             Ret (ProfilingDataOperator (path ++ [key]) v))
        | Raise e => (self, Raise e)
        end
    end.

(** [self[item].values()] and [self[item].empty()] *)
Definition item_values (self : _ProfilingData) (item : pyval)
  : outcome (list pyval) :=
  bind_o (__getitem__ self item) (fun op =>
  match op with
  | DummyOperator => Ret []
  | ProfilingDataOperator _ target => values target
  end).

Definition item_empty (self : _ProfilingData) (item : pyval) : outcome bool :=
  bind_o (__getitem__ self item) (fun op =>
  match op with
  | DummyOperator => Ret true
  | ProfilingDataOperator _ target => empty target
  end).

End ProfilingView.

(** ** [backends/mars/backend.py] *)

Module Backend.

(** [kwargs[key].append(item l)], where [l] is the list as it stands; the
    lists held by [kwargs] are mutated in place (they are taken to be
    distinct objects). *)
Definition append_to (key : string) (item : list pyval -> pyval)
  : M (dict string pyval) unit :=
  fun kwargs =>
    match dict_get String.eqb kwargs key with
    | Some (PyList l) =>
        (dict_set String.eqb kwargs key (PyList (l ++ [item l])), Ret tt)
    | _ => (kwargs, Raise AttributeError)
    end.

(** [if kwargs[key]: kwargs[key].append(item)] *)
Definition append_if_truthy (key : string) (item : list pyval -> pyval)
  : M (dict string pyval) unit :=
  fun kwargs =>
    match dict_get String.eqb kwargs key with
    | Some v => if py_truthy v then append_to key item kwargs else (kwargs, Ret tt)
    | None => (kwargs, Raise KeyError)
    end.

Definition first_item (l : list pyval) : pyval :=
  match l with x :: _ => x | [] => PyNone end.

(** The body of the loop over the IO processes *)
Definition add_io_process : M (dict string pyval) unit :=
  append_if_truthy "envs" (fun _ => PyDict []) ;;;
  append_to "labels" (fun _ => PyStr "io") ;;;
  append_if_truthy "external_address_schemes" first_item ;;;
  append_if_truthy "enable_internal_addresses" first_item.

Fixpoint repeat_loop (n : nat) (body : M (dict string pyval) unit)
  : M (dict string pyval) unit :=
  match n with
  | O => ret tt
  | S n' => body ;;; repeat_loop n' body
  end.

(** [kwargs[key]] *)
Definition lookup (key : string) : M (dict string pyval) pyval :=
  fun kwargs =>
    match dict_get String.eqb kwargs key with
    | Some v => (kwargs, Ret v)
    | None => (kwargs, Raise KeyError)
    end.

(** [build_pool_kwargs]: the [kwargs] afterwards and the returned
    [n_process] (the returned dictionary is [kwargs] itself). *)
Definition build_pool_kwargs (n_process : Z) : M (dict string pyval) Z :=
  fun kwargs =>
    let n_io_process :=
      match dict_get String.eqb kwargs "n_io_process" with
      | Some v => v
      | None => PyInt 0
      end in
    let kwargs := dict_del String.eqb kwargs "n_io_process" in
    if py_truthy n_io_process then
      match py_add (PyInt n_process) n_io_process with
      | Raise e => (kwargs, Raise e)
      | Ret sum =>
          (lookup "labels" ;;;
           lookup "envs" ;;;
           lookup "external_address_schemes" ;;;
           lookup "enable_internal_addresses" ;;;
           match as_int n_io_process, as_int sum with
           | Some k, Some n =>
               repeat_loop (Z.to_nat k) add_io_process ;;; ret n
           | _, _ => raise TypeError
           end) kwargs
      end
    else (kwargs, Ret n_process).



End Backend.

(** ** Concrete inputs used below *)

Module Examples.
Import Profiling Context.

(** A process with no [MARS_PROFILING_*] variable set; [str] is decoded
    byte for byte and text is not accepted where a number is expected. *)
Definition runtime : Runtime :=
  {| environ := [];
     int_of_str := fun _ => Raise (ValueError "invalid literal for int()");
     float_of_str := fun _ => Raise (ValueError "could not convert string to float");
     format := fun v => match v with PyStr s => s | _ => "..." end;
     decode_utf8 := fun s => Ret s |}.

Definition ref0 : ActorRef := {| address := "127.0.0.1:1111"; uid := "actor" |}.

(** A call [actor.method(n)], as [(method_name, batch, args, kwargs)] *)
Definition call_content (n : Z) : pyval :=
  PyTuple [PyStr "method"; PyBool false; PyTuple [PyInt n]; PyDict []].

Definition send_of (content : pyval) : Message :=
  SendMessage 0 ref0 content None.

(** [collect] applied to calls of the given durations, in order *)
Definition collected (durations : list Z) : _CallStats :=
  fold_left
    (fun self n => fst (collect runtime (send_of (call_content n)) (inject_Z n) self))
    durations (new_CallStats []).

(** Ten slow calls, of durations 2 to 11 *)
Definition ten_slow_calls : _CallStats :=
  collected [2; 3; 4; 5; 6; 7; 8; 9; 10; 11]%Z.

(** Two calls whose tuples cannot be ordered: same duration, uid and
    address, contents [["name", {}]] and [["name", 1]] *)
Definition unorderable1 : Message :=
  send_of (PyList [PyStr "name"; PyDict []]).
Definition unorderable2 : Message :=
  send_of (PyList [PyStr "name"; PyInt 1]).

Definition one_slow_call : _CallStats :=
  fst (collect runtime unorderable1 1 (new_CallStats [])).

Definition process0 : Process :=
  {| registry := new_ProfilingData; spawned := O; cancelled := [] |}.

(** Two registered tasks, the second with its own threshold *)
Definition two_tasks : _ProfilingData :=
  registry
    (fst (init runtime "task-b"
               (PyDict [(PyStr "slow_calls_duration_threshold", PyInt 3)])
               (fst (init runtime "task-a" PyNone process0)))).

(** A task registered with a debug interval, after one call *)
Definition debugged_task : Process :=
  set_call_stats
    (fun d => fst (collect_each runtime (send_of (call_content 5)) 5 d))
    (fst (init runtime "task"
               (PyDict [(PyStr "debug_interval_seconds", PyInt 2)]) process0)).

Definition world0 : World := {| next_message_id := O; sent := [] |}.

Definition pool : string := "127.0.0.1:1111".
Definition main_pool : string := "127.0.0.1:1000".

(** The caller is cancelled while the handle is shielded, and not again *)
Definition cancelled_once (id : nat) (p : await_point) : bool :=
  match p with AtShield => true | AtFinal => false end.

Definition never_cancelled (id : nat) (p : await_point) : bool := false.

(** The remote call has produced the result 42; the pool answers a cancel
    request with the given error. *)
Definition finished_call_env (cancel_error : exn) : Env :=
  {| reply := fun _ m =>
       match m with
       | CancelMessage id _ _ => Ret (ErrorMessage id cancel_error)
       | _ => Ret (ResultMessage (message_id_of m) (PyInt 42))
       end;
     interrupted := cancelled_once;
     create_actor_ref := fun r => r;
     create_local_actor_ref := fun _ _ => None;
     detect_cycle_send := fun _ _ => Ret tt |}.

(** The remote call has produced 42 and the pool accepts the cancel
    request all the same. *)
Definition cancel_accepted_env : Env :=
  {| reply := fun _ m => Ret (ResultMessage (message_id_of m) (PyInt 42));
     interrupted := cancelled_once;
     create_actor_ref := fun r => r;
     create_local_actor_ref := fun _ _ => None;
     detect_cycle_send := fun _ _ => Ret tt |}.

(** Every pool reports [main_pool] as its main pool; actor references are
    resolved remotely, to the given address. *)
Definition pools_env (resolved : string) : Env :=
  {| reply := fun _ m =>
       match m with
       | ControlMessage id _ get_config _ => Ret (ResultMessage id (PyStr main_pool))
       | ActorRefMessage id r =>
           Ret (ResultMessage id (PyActorRef {| address := resolved; uid := uid r |}))
       | _ => Ret (ResultMessage (message_id_of m) PyNone)
       end;
     interrupted := never_cancelled;
     create_actor_ref := fun r => r;
     create_local_actor_ref := fun _ _ => None;
     detect_cycle_send := fun _ _ => Ret tt |}.

End Examples.

(** ** Further concrete inputs *)

Module Examples2.
Import Profiling ProfilingView Context Backend Examples.


(** What a call that is waited for gives the caller *)
Definition unwrapped (o : outcome Response) : outcome pyval :=
  match o with
  | Ret m => _process_result_message m
  | Raise e => Raise e
  end.

(** The entries of task [other] are the same in [p] and [q]. *)
Definition same_task_entries (other : string) (p q : Process) : Prop :=
  dict_get String.eqb (_data (registry q)) other
  = dict_get String.eqb (_data (registry p)) other /\
  dict_get String.eqb (_call_stats (registry q)) other
  = dict_get String.eqb (_call_stats (registry p)) other /\
  dict_get String.eqb (_debug_task (registry q)) other
  = dict_get String.eqb (_debug_task (registry p)) other.

End Examples2.

(** * Properties *)

(** ** Python values *)

(** Induction over values, through the items of sequences *)
Section PyvalInd.
Variable P : pyval -> Prop.
Hypothesis HNone : P PyNone.
Hypothesis HBool : forall b, P (PyBool b).
Hypothesis HInt : forall z, P (PyInt z).
Hypothesis HFloat : forall q, P (PyFloat q).
Hypothesis HStr : forall s, P (PyStr s).
Hypothesis HBytes : forall s, P (PyBytes s).
Hypothesis HTuple : forall l, Forall P l -> P (PyTuple l).
Hypothesis HList : forall l, Forall P l -> P (PyList l).
Hypothesis HDict : forall d, P (PyDict d).
Hypothesis HRef : forall r, P (PyActorRef r).

Fixpoint pyval_items_ind (v : pyval) : P v :=
  let all :=
    fix all (l : list pyval) : Forall P l :=
      match l with
      | [] => Forall_nil P
      | x :: l' => Forall_cons x (pyval_items_ind x) (all l')
      end in
  match v with
  | PyNone => HNone
  | PyBool b => HBool b
  | PyInt z => HInt z
  | PyFloat q => HFloat q
  | PyStr s => HStr s
  | PyBytes s => HBytes s
  | PyTuple l => HTuple (all l)
  | PyList l => HList (all l)
  | PyDict d => HDict d
  | PyActorRef r => HRef r
  end.
End PyvalInd.

(** A comparison that fails fails with [TypeError]. *)
Lemma py_lt_raises_TypeError a : forall b e,
  py_lt a b = Raise e -> e = TypeError.
Proof.
  induction a as [| | | | | |l IH|l IH| |] using pyval_items_ind;
    intros v e; destruct v; cbn;
    try (intros H; inversion H; reflexivity);
    try (match goal with |- context [as_num ?x] => destruct (as_num x) end;
         intros H; inversion H; reflexivity).
  - revert items. induction IH as [|x l Hx _ IHl]; intros [|y items];
      try (intros H; inversion H; fail).
    destruct (py_eq x y); [apply IHl|apply Hx].
  - revert items. induction IH as [|x l Hx _ IHl]; intros [|y items];
      try (intros H; inversion H; fail).
    destruct (py_eq x y); [apply IHl|apply Hx].
Qed.

(** ** Dictionaries *)

Section DictFacts.
Variables (K V : Type) (eqb : K -> K -> bool).
Hypothesis eqb_refl : forall k, eqb k k = true.

Lemma dict_get_set_same (d : dict K V) k v : dict_get eqb (dict_set eqb d k v) k = Some v.
Proof.
  induction d as [|[k' v'] d IH]; simpl.
  - now rewrite eqb_refl.
  - destruct (eqb k' k) eqn:E; simpl; rewrite E; auto.
Qed.


Lemma dict_del_absent (d : dict K V) k : dict_get eqb d k = None -> dict_del eqb d k = d.
Proof.
  unfold dict_del. induction d as [|[k' v'] d IH]; simpl; auto.
  destruct (eqb k' k) eqn:E; simpl; [discriminate|].
  intros H. now rewrite (IH H).
Qed.
End DictFacts.

(** ** [heapq] *)

Section HeapqFacts.
Variable T : Type.
Variable lt : T -> T -> outcome bool.

(** *** The loops do not depend on the fuel once there is enough of it *)

Lemma div2_pred_lt pos : 0 < pos -> Nat.div2 (pos - 1) < pos.
Proof.
  intros H. destruct pos as [|p]; [lia|].
  replace (S p - 1) with p by lia.
  pose proof (@Nat.div2_decr p p). lia.
Qed.

Lemma _siftdown_loop_fuel f1 : forall f2 heap newitem startpos pos,
  pos <= f1 -> pos <= f2 ->
  _siftdown_loop lt f1 heap newitem startpos pos
  = _siftdown_loop lt f2 heap newitem startpos pos.
Proof.
  induction f1 as [|f1 IH]; intros f2 heap newitem startpos pos H1 H2.
  - assert (pos = 0) by lia. subst pos.
    destruct f2; simpl; auto.
  - destruct f2 as [|f2].
    + assert (pos = 0) by lia. subst pos. simpl.
      now destruct (startpos <? 0) eqn:E; [apply Nat.ltb_lt in E; lia|].
    + simpl. destruct (startpos <? pos) eqn:E; auto.
      apply Nat.ltb_lt in E.
      destruct (nth_error heap (Nat.div2 (pos - 1))); auto.
      destruct (lt newitem t) as [[|]|]; auto.
      assert (Nat.div2 (pos - 1) < pos) by (apply div2_pred_lt; lia).
      apply IH; lia.
Qed.

Lemma _siftup_loop_fuel f1 : forall f2 heap endpos pos,
  endpos - pos <= f1 -> endpos - pos <= f2 ->
  _siftup_loop lt f1 heap endpos pos = _siftup_loop lt f2 heap endpos pos.
Proof.
  induction f1 as [|f1 IH]; intros f2 heap endpos pos H1 H2.
  - destruct f2; auto. cbn [_siftup_loop].
    destruct (2 * pos + 1 <? endpos) eqn:E; auto.
    apply Nat.ltb_lt in E. lia.
  - destruct f2 as [|f2].
    + cbn [_siftup_loop].
      destruct (2 * pos + 1 <? endpos) eqn:E; auto.
      apply Nat.ltb_lt in E. lia.
    + cbn [_siftup_loop].
      destruct (2 * pos + 1 <? endpos) eqn:E; auto.
      apply Nat.ltb_lt in E.
      destruct (2 * pos + 1 + 1 <? endpos) eqn:E2.
      * destruct (nth_error heap (2 * pos + 1)); auto.
        destruct (nth_error heap (2 * pos + 1 + 1)); auto.
        destruct (lt t t0) as [b|]; auto.
        destruct (nth_error heap (if b then 2 * pos + 1 else 2 * pos + 1 + 1)); auto.
        apply IH; destruct b; lia.
      * destruct (nth_error heap (2 * pos + 1)); auto.
        apply IH; lia.
Qed.

(** *** Lengths *)

Lemma setitem_length (heap : list T) pos x :
  List.length (setitem heap pos x) = List.length heap.
Proof.
  revert pos; induction heap; intros [|pos]; simpl; auto.
Qed.

Lemma _siftdown_loop_length fuel : forall heap newitem startpos pos,
  List.length (fst (_siftdown_loop lt fuel heap newitem startpos pos))
  = List.length heap.
Proof.
  induction fuel as [|fuel IH]; intros; simpl.
  - apply setitem_length.
  - destruct (startpos <? pos); simpl; [|apply setitem_length].
    destruct (nth_error heap _); auto.
    destruct (lt newitem t) as [[|]|]; simpl; auto.
    + rewrite IH. apply setitem_length.
    + apply setitem_length.
Qed.

Lemma _siftdown_length heap startpos pos :
  List.length (fst (_siftdown lt heap startpos pos)) = List.length heap.
Proof.
  unfold _siftdown. destruct (nth_error heap pos); auto.
  apply _siftdown_loop_length.
Qed.

Lemma _siftup_loop_length fuel : forall heap endpos pos,
  List.length (fst (_siftup_loop lt fuel heap endpos pos)) = List.length heap.
Proof.
  induction fuel as [|fuel IH]; intros; cbn [_siftup_loop]; auto.
  destruct (2 * pos + 1 <? endpos); auto.
  match goal with |- context [match ?s with Ret _ => _ | Raise _ => _ end] =>
    destruct s as [c|]; auto end.
  destruct (nth_error heap c); auto.
  rewrite IH. apply setitem_length.
Qed.

Lemma _siftup_length heap pos :
  List.length (fst (_siftup lt heap pos)) = List.length heap.
Proof.
  unfold _siftup. destruct (nth_error heap pos); auto.
  pose proof (_siftup_loop_length (List.length heap - pos) heap (List.length heap) pos) as L.
  destruct (_siftup_loop lt _ _ _ _) as [h1 [p1|e]]; simpl in *; auto.
  rewrite _siftdown_length, setitem_length. exact L.
Qed.

Lemma heappush_length heap item :
  List.length (fst (heappush lt heap item)) = S (List.length heap).
Proof.
  unfold heappush. rewrite _siftdown_length, length_app. simpl. lia.
Qed.

Lemma heapreplace_length heap item :
  List.length (fst (heapreplace lt heap item)) = List.length heap.
Proof.
  unfold heapreplace. destruct heap as [|r heap]; auto.
  pose proof (_siftup_length (setitem (r :: heap) 0 item) 0) as L.
  destruct (_siftup lt _ _) as [h1 [u|e]]; simpl in *; auto.
Qed.
(** *** Insertion keeps the items *)

Lemma setitem_same (heap : list T) pos x :
  nth_error heap pos = Some x -> setitem heap pos x = heap.
Proof.
  revert pos; induction heap as [|h heap IH]; intros [|pos]; simpl; auto.
  - now intros [= ->].
  - intros H. now rewrite IH.
Qed.

Lemma setitem_cons_swap (heap : list T) j a b :
  j < List.length heap ->
  Permutation (a :: setitem heap j b) (b :: setitem heap j a).
Proof.
  revert j; induction heap as [|h heap IH]; intros [|j] Hj; simpl in *;
    try lia; try apply perm_swap.
  eapply perm_trans; [apply perm_swap|].
  eapply perm_trans; [apply perm_skip, IH; lia|]. apply perm_swap.
Qed.

(** Moving the parent down and the new item up permutes the list. *)
Lemma setitem_swap : forall (heap : list T) i j a b,
  i <> j -> j < List.length heap -> nth_error heap i = Some a ->
  Permutation (setitem heap j b) (setitem (setitem heap j a) i b).
Proof.
  induction heap as [|h heap IH]; intros [|i] [|j] a b Hij Hj Hi;
    simpl in *; try discriminate; try lia.
  - inversion Hi; subst. apply setitem_cons_swap. lia.
  - clear IH Hij Hj. revert i Hi.
    induction heap as [|y l IHl]; intros [|i] Hi; simpl in *;
      try discriminate.
    + inversion Hi; subst. apply perm_swap.
    + eapply perm_trans; [apply perm_swap|].
      eapply perm_trans; [apply perm_skip, IHl, Hi|]. apply perm_swap.
  - apply perm_skip, IH; auto; lia.
Qed.

Lemma _siftdown_loop_perm fuel : forall heap newitem startpos pos,
  pos < List.length heap ->
  snd (_siftdown_loop lt fuel heap newitem startpos pos) = Ret tt ->
  Permutation (setitem heap pos newitem)
              (fst (_siftdown_loop lt fuel heap newitem startpos pos)).
Proof.
  induction fuel as [|fuel IH]; intros heap newitem startpos pos Hpos;
    simpl; auto.
  destruct (Nat.ltb_spec startpos pos) as [Hlt|]; simpl; auto.
  destruct (nth_error heap (Nat.div2 (pos - 1))) as [parent|] eqn:Hp;
    simpl; [|discriminate].
  destruct (lt newitem parent) as [[|]|]; simpl; auto; [|discriminate].
  assert (Hpar : Nat.div2 (pos - 1) < pos) by (apply div2_pred_lt; lia).
  intros Hr. eapply perm_trans; [|apply IH, Hr; rewrite setitem_length; lia].
  apply setitem_swap; auto. lia.
Qed.

(** A push that returns has added the item and kept the others. *)
Lemma heappush_perm heap item :
  snd (heappush lt heap item) = Ret tt ->
  Permutation (item :: heap) (fst (heappush lt heap item)).
Proof.
  unfold heappush, _siftdown.
  assert (Hn : nth_error (heap ++ [item]) (List.length (heap ++ [item]) - 1)
               = Some item).
  { rewrite length_app. simpl.
    replace (List.length heap + 1 - 1) with (List.length heap) by lia.
    rewrite nth_error_app2, Nat.sub_diag; auto. }
  rewrite Hn. intros Hr.
  eapply perm_trans;
    [|apply _siftdown_loop_perm, Hr; rewrite length_app; simpl; lia].
  rewrite (setitem_same Hn).
  eapply perm_trans; [|apply Permutation_app_comm]. reflexivity.
Qed.

(** *** Failures

    With positions in range, an operation fails only when a comparison
    does. *)

Hypothesis lt_raises : forall a b e, lt a b = Raise e -> e = TypeError.

Lemma _siftdown_loop_raises fuel : forall heap newitem startpos pos e,
  pos < List.length heap ->
  snd (_siftdown_loop lt fuel heap newitem startpos pos) = Raise e ->
  e = TypeError.
Proof.
  induction fuel as [|fuel IH]; intros heap newitem startpos pos e Hpos;
    simpl; [discriminate|].
  destruct (Nat.ltb_spec startpos pos) as [Hlt|]; simpl; [|discriminate].
  assert (Hpar : Nat.div2 (pos - 1) < pos) by (apply div2_pred_lt; lia).
  destruct (nth_error heap (Nat.div2 (pos - 1))) as [parent|] eqn:Hp.
  - destruct (lt newitem parent) as [[|]|e'] eqn:Hc; simpl.
    + apply IH. rewrite setitem_length. lia.
    + discriminate.
    + intros [= <-]. eapply lt_raises; eauto.
  - apply nth_error_None in Hp. lia.
Qed.

Lemma _siftdown_raises heap startpos pos e :
  pos < List.length heap ->
  snd (_siftdown lt heap startpos pos) = Raise e -> e = TypeError.
Proof.
  intros Hpos. unfold _siftdown.
  destruct (nth_error heap pos) eqn:Hn.
  - now apply _siftdown_loop_raises.
  - apply nth_error_None in Hn. lia.
Qed.

Lemma _siftup_loop_result fuel : forall heap pos,
  pos < List.length heap ->
  match snd (_siftup_loop lt fuel heap (List.length heap) pos) with
  | Ret pos1 => pos1 < List.length heap
  | Raise e => e = TypeError
  end.
Proof.
  induction fuel as [|fuel IH]; intros heap pos Hpos; cbn [_siftup_loop]; auto.
  destruct (Nat.ltb_spec (2 * pos + 1) (List.length heap)) as [Hc|]; auto.
  assert (Hstep : forall c x, c < List.length heap ->
            nth_error heap c = Some x ->
            match snd (_siftup_loop lt fuel (setitem heap pos x)
                                    (List.length heap) c) with
            | Ret pos1 => pos1 < List.length heap
            | Raise e => e = TypeError
            end).
  { intros c x Hlt _.
    specialize (IH (setitem heap pos x) c).
    rewrite setitem_length in IH. now apply IH. }
  destruct (nth_error heap (2 * pos + 1)) as [c|] eqn:Hl;
    [|apply nth_error_None in Hl; lia].
  destruct (Nat.ltb_spec (2 * pos + 1 + 1) (List.length heap)) as [Hr|].
  - destruct (nth_error heap (2 * pos + 1 + 1)) as [r|] eqn:Hrr;
      [|apply nth_error_None in Hrr; lia].
    destruct (lt c r) as [[|]|e] eqn:Hcmp; cbv beta iota zeta.
    + rewrite Hl. now apply Hstep with (x := c).
    + rewrite Hrr. now apply Hstep with (x := r).
    + eapply lt_raises; eauto.
  - rewrite Hl. now apply Hstep with (x := c).
Qed.

Lemma _siftup_raises heap pos e :
  pos < List.length heap ->
  snd (_siftup lt heap pos) = Raise e -> e = TypeError.
Proof.
  intros Hpos. unfold _siftup.
  destruct (nth_error heap pos) as [newitem|] eqn:Hn;
    [|apply nth_error_None in Hn; lia].
  pose proof (@_siftup_loop_result (List.length heap - pos) heap pos Hpos) as R.
  pose proof (_siftup_loop_length (List.length heap - pos) heap
                                  (List.length heap) pos) as L.
  destruct (_siftup_loop lt _ heap _ pos) as [heap1 [pos1|e1]]; simpl in *.
  - apply _siftdown_raises. rewrite setitem_length. lia.
  - now intros [= <-].
Qed.

Lemma heappush_raises heap item e :
  snd (heappush lt heap item) = Raise e -> e = TypeError.
Proof.
  unfold heappush. apply _siftdown_raises.
  rewrite length_app. simpl. lia.
Qed.

Lemma heapreplace_raises heap item e :
  heap <> [] -> snd (heapreplace lt heap item) = Raise e -> e = TypeError.
Proof.
  intros Hne. unfold heapreplace. destruct heap as [|r heap]; [easy|].
  pose proof (@_siftup_raises (setitem (r :: heap) 0 item) 0) as R.
  destruct (_siftup lt _ 0) as [h1 [u|e1]]; simpl in *; [discriminate|].
  intros [= <-]. apply R; auto. lia.
Qed.

End HeapqFacts.

(** ** The percentile collector *)

Module MetricsFacts.
Import Metrics.
Local Open Scope Z_scope.


















Example percentile_p90 :
  forall c, new_Percentile 90 100 = Ret c ->
            reported (record_all c (one_to 100)) = [Some 10].
Proof. intros c H; inversion H; subst. vm_compute. reflexivity. Qed.

Example percentile_p95 :
  forall c, new_Percentile 95 100 = Ret c ->
            reported (record_all c (one_to 100)) = [Some 5].
Proof. intros c H; inversion H; subst. vm_compute. reflexivity. Qed.

Example percentile_p99 :
  forall c, new_Percentile 99 100 = Ret c ->
            reported (record_all c (one_to 100)) = [Some 1]
            /\ reported (record_all c (one_to 101)) = [Some 1].
Proof. intros c H; inversion H; subst. vm_compute. auto. Qed.



End MetricsFacts.

(** ** [_CallStats] *)

Module CallStatsFacts.
Import Profiling Examples.

(** At most ten slow calls are ever held. *)
Lemma collect_slow_calls_bounded rt message duration self :
  List.length (_slow_calls self) <= 10 ->
  List.length (_slow_calls (fst (collect rt message duration self))) <= 10.
Proof.
  intros Hlen. unfold collect, bind, lift, ret, raise, modify, get.
  destruct (actor_ref_of message) as [r|]; auto.
  destruct (content_of message) as [c|]; auto.
  destruct (getitem0 c) as [c0|]; auto.
  destruct (hashable c0); auto. cbv beta iota zeta.
  match goal with |- context [__get__ ?a ?b ?c] =>
    destruct (__get__ a b c) as [t|]; auto end.
  match goal with |- context [py_lt ?a ?b] =>
    destruct (py_lt a b) as [[|]|]; auto end.
  unfold insert_slow_call, try_except. cbn [_slow_calls set_call_counter].
  destruct (Nat.ltb_spec (List.length (_slow_calls self)) 10) as [Hlt|Hge].
  - match goal with |- context [heappush ?lt ?h ?k] =>
      pose proof (heappush_length lt h k) as L;
      destruct (heappush lt h k) as [h' [u|e]] end;
      simpl in *; [lia|].
    destruct e; simpl; lia.
  - match goal with |- context [heapreplace ?lt ?h ?k] =>
      pose proof (heapreplace_length lt h k) as L;
      destruct (heapreplace lt h k) as [h' [u|e]] end;
      simpl in *; [lia|].
    destruct e; simpl; lia.
Qed.

Lemma slow_call_lt_raises a b e : slow_call_lt a b = Raise e -> e = TypeError.
Proof. apply py_lt_raises_TypeError. Qed.

(** The guarded insertion never raises and leaves the counter alone. *)
Lemma insert_slow_call_returns k self :
  snd (insert_slow_call k self) = Ret tt /\
  _call_counter (fst (insert_slow_call k self)) = _call_counter self /\
  _options (fst (insert_slow_call k self)) = _options self.
Proof.
  unfold insert_slow_call, try_except.
  destruct (Nat.ltb_spec (List.length (_slow_calls self)) 10) as [Hlt|Hge].
  - pose proof (@heappush_raises _ slow_call_lt slow_call_lt_raises
                  (_slow_calls self) k) as R.
    destruct (heappush slow_call_lt (_slow_calls self) k) as [h [[]|e]];
      simpl in *; auto.
    rewrite (R e eq_refl). simpl. auto.
  - assert (Hne : _slow_calls self <> [])
      by (destruct (_slow_calls self); simpl in *; [lia|discriminate]).
    pose proof (@heapreplace_raises _ slow_call_lt slow_call_lt_raises
                  (_slow_calls self) k) as R.
    destruct (heapreplace slow_call_lt (_slow_calls self) k) as [h [x|e]];
      simpl in *; auto.
    rewrite (R e Hne eq_refl). simpl. auto.
Qed.

(** With room left, a sample whose comparisons succeed is added. *)
Lemma insert_slow_call_with_room k self :
  List.length (_slow_calls self) < 10 ->
  snd (heappush slow_call_lt (_slow_calls self) k) = Ret tt ->
  Permutation (k :: _slow_calls self)
              (_slow_calls (fst (insert_slow_call k self))).
Proof.
  intros Hlt Hr. unfold insert_slow_call, try_except.
  destruct (Nat.ltb_spec (List.length (_slow_calls self)) 10); [|lia].
  pose proof (heappush_perm Hr) as Hp.
  destruct (heappush slow_call_lt (_slow_calls self) k) as [h [[]|e]];
    simpl in *; [exact Hp|discriminate].
Qed.

(** For a message with a hashable method name and a numeric threshold,
    [collect] returns normally and counts the call, whether or not the
    sample can be ordered. *)
Lemma collect_returns_and_counts rt message duration self r c c0 t n :
  actor_ref_of message = Ret r ->
  content_of message = Ret c ->
  getitem0 c = Ret c0 ->
  hashable c0 = true ->
  __get__ rt slow_calls_duration_threshold (_options self) = Ret t ->
  as_num t = Some n ->
  snd (collect rt message duration self) = Ret tt /\
  _call_counter (fst (collect rt message duration self))
  = counter_inc (_call_counter self) (uid r, c0).
Proof.
  intros Hr Hc Hc0 Hh Ht Hn.
  unfold collect, bind, lift, ret, raise, modify, get.
  rewrite Hr, Hc, Hc0, Hh. cbv beta iota zeta.
  cbn [_options set_call_counter]. rewrite Ht.
  assert (Hlt : py_lt (PyFloat duration) t = Ret (Qltb duration n)).
  { destruct t; simpl in Hn; try discriminate; inversion Hn; reflexivity. }
  rewrite Hlt. destruct (Qltb duration n); [auto|].
  match goal with |- context [insert_slow_call ?k ?s] =>
    destruct (insert_slow_call_returns k s) as (R1 & R2 & _) end.
  split; [exact R1|]. rewrite R2. reflexivity.
Qed.

(** Without an override in the environment the threshold is 1. *)
Lemma default_threshold rt :
  dict_get String.eqb (environ rt) "MARS_PROFILING_SLOW_CALLS_DURATION_THRESHOLD"
  = None ->
  __get__ rt slow_calls_duration_threshold [] = Ret (PyInt 1).
Proof.
  intros H. unfold __get__.
  cbn [dict_get is_none _name _default _type slow_calls_duration_threshold].
  replace (String.append "MARS_PROFILING_" (upper "slow_calls_duration_threshold"))
    with "MARS_PROFILING_SLOW_CALLS_DURATION_THRESHOLD" by reflexivity.
  now rewrite H.
Qed.

(** Fifteen calls of durations 15 down to 1: the ten held are not the ten
    slowest. *)
Example slow_calls_after_descending_durations :
  map sc_duration
      (sorted_reverse (fun a b => Qltb (sc_duration b) (sc_duration a))
         (_slow_calls
            (collected [15; 14; 13; 12; 11; 10; 9; 8; 7; 6; 5; 4; 3; 2; 1]%Z)))
  = map inject_Z [15; 14; 13; 12; 11; 10; 9; 8; 7; 1]%Z.
Proof. vm_compute. reflexivity. Qed.

(** C4.  With ten slow calls of durations 2..11 held, a call of duration 1
    (which meets the default threshold of 1) takes the place of the
    minimum, the call of duration 2, although it ranks below it. *)
Theorem collect_full_heap_replaces_minimum_by_smaller_sample :
  map sc_duration (_slow_calls ten_slow_calls)
  = map inject_Z [2; 3; 4; 5; 6; 7; 8; 9; 10; 11]%Z /\
  collect runtime (send_of (call_content 1)) 1 ten_slow_calls
  = (collected [2; 3; 4; 5; 6; 7; 8; 9; 10; 11; 1]%Z, Ret tt) /\
  map sc_duration
      (_slow_calls (fst (collect runtime (send_of (call_content 1)) 1 ten_slow_calls)))
  = map inject_Z [1; 3; 4; 5; 6; 7; 8; 9; 10; 11]%Z.
Proof. vm_compute. auto. Qed.

(** C5.  A second call whose tuple cannot be compared with the one held:
    [collect] returns normally and counts the call, and the sample stays in
    the slow-call list. *)
Theorem collect_unorderable_sample_is_kept :
  py_lt (PyList [PyStr "name"; PyInt 1]) (PyList [PyStr "name"; PyDict []])
  = Raise TypeError /\
  List.length (_slow_calls one_slow_call) = 1 /\
  snd (collect runtime unorderable2 1 one_slow_call) = Ret tt /\
  _call_counter (fst (collect runtime unorderable2 1 one_slow_call))
  = [(("actor", PyStr "name"), 2%Z)] /\
  map sc_content (_slow_calls (fst (collect runtime unorderable2 1 one_slow_call)))
  = [PyList [PyStr "name"; PyDict []]; PyList [PyStr "name"; PyInt 1]].
Proof. vm_compute. auto 6. Qed.

End CallStatsFacts.

(** ** [_ProfilingData] *)

Module RegistryFacts.
Import Profiling Examples.







End RegistryFacts.

(** ** Options *)

Module OptionsFacts.
Import Profiling Examples.

Lemma init_True_False_None rt task_id options :
  options = PyBool true \/ options = PyBool false \/ options = PyNone ->
  init rt task_id options = init rt task_id (PyDict []).
Proof. intros [H|[H|H]]; subst; reflexivity. Qed.

Lemma init_raises_before_registering rt task_id options p e :
  _ProfilingOptions options = Raise e ->
  init rt task_id options p = (p, Raise e).
Proof. intros H. unfold init, bind, lift. now rewrite H. Qed.

(** A mapping with a key outside the class namespace is rejected before
    anything is registered. *)
Lemma init_rejects_unknown_key rt task_id d p k :
  In k (dict_keys d) ->
  existsb (fun n => py_eq k (PyStr n)) class_dict_keys = false ->
  init rt task_id (PyDict d) p = (p, Raise (ValueError "Invalid profiling options")).
Proof.
  intros Hin Hk. apply init_raises_before_registering.
  unfold _ProfilingOptions.
  destruct (filter _ (dict_keys d)) as [|x l] eqn:E; auto.
  assert (Hf : In k (filter
            (fun k => negb (existsb (fun n => py_eq k (PyStr n)) class_dict_keys))
            (dict_keys d))).
  { apply filter_In. split; auto. now rewrite Hk. }
  rewrite E in Hf. destruct Hf.
Qed.

(** So is a value that is neither a mapping nor equal to [True], [False]
    or [None]. *)
Lemma init_rejects_other_values rt task_id options p :
  (forall d, options <> PyDict d) ->
  py_eq options (PyBool true) = false ->
  py_eq options (PyBool false) = false ->
  py_eq options PyNone = false ->
  init rt task_id options p = (p, Raise (ValueError "Invalid profiling options")).
Proof.
  intros Hd H1 H2 H3. apply init_raises_before_registering.
  unfold _ProfilingOptions. rewrite H1, H2, H3.
  destruct options; try reflexivity. now destruct (Hd items).
Qed.

(** A successful [init] registers the tree and the statistics of the task,
    and a debug task exactly when an interval is configured. *)
Lemma init_registers rt task_id options opts interval p :
  _ProfilingOptions options = Ret opts ->
  __get__ rt debug_interval_seconds opts = Ret interval ->
  let p' := fst (init rt task_id options p) in
  snd (init rt task_id options p) = Ret tt /\
  dict_get String.eqb (_data (registry p')) task_id = Some empty_tree /\
  dict_get String.eqb (_call_stats (registry p')) task_id
  = Some (new_CallStats opts) /\
  (if is_none interval
   then _debug_task (registry p') = _debug_task (registry p)
   else dict_get String.eqb (_debug_task (registry p')) task_id
        = Some (spawned p)).
Proof.
  intros Ho Hi p'. subst p'.
  unfold init, bind, lift, modify, ret, create_task. rewrite Ho, Hi.
  destruct (is_none interval); cbn;
    rewrite ?(dict_get_set_same String.eqb_refl); auto.
Qed.

(** C10.  A mapping whose only key is ["__init__"], which is not an option
    name, passes the validation: [init] returns normally and registers the
    task with that mapping as its options. *)
Theorem init_accepts_class_attribute_name_as_option :
  let options := PyDict [(PyStr "__init__", PyInt 1)] in
  let p := fst (init runtime "task" options process0) in
  existsb (String.eqb "__init__") option_names = false /\
  snd (init runtime "task" options process0) = Ret tt /\
  dict_get String.eqb (_data (registry p)) "task" = Some empty_tree /\
  dict_get String.eqb (_call_stats (registry p)) "task"
  = Some (new_CallStats [(PyStr "__init__", PyInt 1)]).
Proof. vm_compute. auto. Qed.

End OptionsFacts.

(** ** [MarsActorContext] *)

Module ContextFacts.
Import Context Examples.

(** C1, as stated, fails: the caller is cancelled while the handle is
    shielded and the cancel request fails with an error other than
    [CannotCancelTask]; that error is not swallowed, and the result the
    handle holds is not returned. *)
Lemma wait_cancel_failure_not_swallowed :
  let env := finished_call_env (RemoteError "ServerClosed") in
  let message := SendMessage 0 ref0 (call_content 1) None in
  let future := {| holds := reply env pool message |} in
  interrupted env 0 AtShield = true /\
  holds future = Ret (ResultMessage 0 (PyInt 42)) /\
  snd (cancel env pool 0 world0) = Raise (RemoteError "ServerClosed") /\
  snd (_wait env future pool message world0) = Raise (RemoteError "ServerClosed") /\
  snd (_wait env future pool message world0) <> holds future.
Proof. vm_compute. repeat split; discriminate. Qed.

(** C1, amended.  When the awaiting task is cancelled while the handle is
    shielded, one cancel request naming the message's id is sent to its
    address; if it fails with [CannotCancelTask] the caller gets
    [CancelledError]; if it fails otherwise that failure reaches the
    caller; if it succeeds the handle is awaited again and what it holds
    is returned (unless the caller is cancelled again meanwhile). *)
Theorem wait_cancelled_issues_cancel_request env future address message w :
  interrupted env (message_id_of message) AtShield = true ->
  let cancel_message :=
    CancelMessage (next_message_id w) address (message_id_of message) in
  let w' := fst (_wait env future address message w) in
  let r := snd (_wait env future address message w) in
  sent w' = sent w ++ [(address, cancel_message)] /\
  match reply env address cancel_message with
  | Ret (ResultMessage _ _) =>
      r = if interrupted env (message_id_of message) AtFinal
          then Raise CancelledError else holds future
  | Ret (ErrorMessage _ CannotCancelTask) | Raise CannotCancelTask =>
      r = Raise CancelledError
  | Ret (ErrorMessage _ e) | Raise e => r = Raise e
  end.
Proof.
  intros Hc cancel_message w' r. subst w' r.
  unfold _wait, try_except, bind, await_handle, cancel, _call, dispatch,
    new_message_id, modify, lift, ret, raise.
  rewrite Hc. cbn. fold cancel_message.
  destruct (reply env address cancel_message) as [[i v|i e]|e]; cbn.
  - destruct (interrupted env (message_id_of message) AtFinal); cbn; auto.
  - destruct e; cbn; auto.
  - destruct e; cbn; auto.
Qed.

Lemma wait_cancelled_issues_cancel_request_witness :
  let env := cancel_accepted_env in
  let message := SendMessage 0 ref0 (call_content 1) None in
  let future := {| holds := reply env pool message |} in
  let w := {| next_message_id := 1; sent := [(pool, message)] |} in
  interrupted env (message_id_of message) AtShield = true /\
  sent (fst (_wait env future pool message w))
  = [(pool, message); (pool, CancelMessage 1 pool 0)] /\
  snd (_wait env future pool message w) = Ret (ResultMessage 0 (PyInt 42)).
Proof.
  intros env message future w.
  destruct (@wait_cancelled_issues_cancel_request env future pool message w eq_refl)
    as [Hs Hr].
  split; [reflexivity|]. split; [exact Hs|exact Hr].
Defined.

(** C2, as stated, fails: the remote call has produced 42, the caller is
    cancelled while the handle is shielded and the pool answers the cancel
    request with [CannotCancelTask]; [send] raises [CancelledError]. *)
Lemma send_result_lost_when_cancel_too_late :
  let env := finished_call_env CannotCancelTask in
  reply env pool (SendMessage 0 ref0 (call_content 1) None)
  = Ret (ResultMessage 0 (PyInt 42)) /\
  snd (send env ref0 (call_content 1) true None world0) = Raise CancelledError.
Proof. vm_compute. auto. Qed.

(** C2, amended.  [send] returns what the handle holds -- the result, or
    the error it carries -- whenever the wait reaches its final await: the
    shielded await ends without a cancellation, or the cancel request
    succeeds (and the caller is not cancelled during the final await). *)
Theorem send_returns_what_handle_holds env actor_ref message pc w :
  let id := next_message_id w in
  let send_message := SendMessage id actor_ref message pc in
  let cancel_message := CancelMessage (S id) (address actor_ref) id in
  detect_cycle_send env send_message true = Ret tt ->
  interrupted env id AtFinal = false ->
  (interrupted env id AtShield = false /\
   reply env (address actor_ref) send_message <> Raise CancelledError) \/
  (exists i v, reply env (address actor_ref) cancel_message
               = Ret (ResultMessage i v)) ->
  snd (send env actor_ref message true pc w)
  = match reply env (address actor_ref) send_message with
    | Ret (ResultMessage _ result) => Ret (inl result)
    | Ret (ErrorMessage _ cause) => Raise cause
    | Raise e => Raise e
    end.
Proof.
  intros id send_message cancel_message Hcycle Hfinal Hpath.
  unfold send, _wait, try_except, bind, await_handle, cancel, _call,
    _call_nowait, dispatch, new_message_id, modify, lift, ret, raise.
  fold id. fold send_message. rewrite Hcycle. cbn.
  fold id. rewrite Hfinal.
  destruct (interrupted env id AtShield) eqn:Hshield.
  - destruct Hpath as [[Habs _]|(i & v & Hok)]; [discriminate|].
    cbn. fold cancel_message. rewrite Hok. cbn.
    destruct (reply env (address actor_ref) send_message) as [[j x|j e]|e];
      reflexivity.
  - destruct (reply env (address actor_ref) send_message) as [[j x|j e]|e] eqn:Hr;
      cbn; try reflexivity.
    destruct (is_CancelledError e) eqn:He; cbn; try reflexivity.
    destruct e; try discriminate.
    destruct Hpath as [[_ Hne]|(i & v & Hok)]; [congruence|].
    fold cancel_message. rewrite Hok. reflexivity.
Qed.

Lemma send_returns_what_handle_holds_witness :
  detect_cycle_send cancel_accepted_env
    (SendMessage 0 ref0 (call_content 1) None) true = Ret tt /\
  interrupted cancel_accepted_env 0 AtFinal = false /\
  (exists i v, reply cancel_accepted_env (address ref0) (CancelMessage 1 (address ref0) 0)
               = Ret (ResultMessage i v)) /\
  snd (send cancel_accepted_env ref0 (call_content 1) true None world0)
  = Ret (inl (PyInt 42)).
Proof.
  assert (Hok : exists i v,
             reply cancel_accepted_env (address ref0)
                   (CancelMessage 1 (address ref0) 0) = Ret (ResultMessage i v))
    by (exists 1, (PyInt 42); reflexivity).
  split; [reflexivity|]. split; [reflexivity|]. split; [exact Hok|].
  exact (@send_returns_what_handle_holds cancel_accepted_env ref0
           (call_content 1) None world0 eq_refl eq_refl (or_intror Hok)).
Defined.

(** [_wait] sends nothing but, possibly, one cancel request. *)
Lemma wait_sends env future address message w :
  sent (fst (_wait env future address message w)) = sent w \/
  sent (fst (_wait env future address message w))
  = sent w ++ [(address, CancelMessage (next_message_id w) address
                                       (message_id_of message))].
Proof.
  unfold _wait, try_except, bind, await_handle, cancel, _call, dispatch,
    new_message_id, modify, lift, ret, raise.
  destruct (interrupted env (message_id_of message) AtShield); cbn.
  - right.
    destruct (reply env address _) as [[i v|i e]|e]; cbn;
      try (destruct e; cbn);
      destruct (interrupted env (message_id_of message) AtFinal); reflexivity.
  - destruct (holds future) as [x|e]; cbn.
    + left. destruct (interrupted env (message_id_of message) AtFinal); reflexivity.
    + destruct (is_CancelledError e); cbn.
      * right.
        destruct (reply env address _) as [[i v|i e']|e']; cbn;
          try (destruct e'; cbn);
          destruct (interrupted env (message_id_of message) AtFinal); reflexivity.
      * left. destruct (interrupted env (message_id_of message) AtFinal); reflexivity.
Qed.

(** Resolving a reference sends no control message. *)
Lemma actor_ref_sends env arg w :
  exists rest,
    sent (fst (actor_ref env arg w)) = sent w ++ rest /\
    Forall (fun am => is_control (snd am) = false) rest.
Proof.
  unfold actor_ref.
  destruct (create_local_actor_ref env _ _).
  - exists []. cbn. now rewrite app_nil_r.
  - unfold bind at 1. unfold new_message_id at 1. cbn iota beta.
    unfold bind at 1. unfold _call_nowait, dispatch, bind, modify, ret. cbn iota beta.
    match goal with |- context [_wait env ?f ?a ?m ?w1] =>
      destruct (wait_sends env f a m w1) as [E|E];
      destruct (_wait env f a m w1) as [w2 [x|e]] end;
      cbn in E |- *; unfold lift;
      try (destruct (_process_result_message x)); cbn; rewrite E;
      rewrite <- ?app_assoc; eexists; (split; [reflexivity|]);
      repeat constructor.
Qed.

(** C3, as stated, fails: the actor lives on the main pool and [kill_actor]
    raises, but only after it has asked the actor's pool for its main pool
    address and the reference has been resolved remotely. *)
Lemma kill_actor_main_pool_after_remote_calls :
  let env := pools_env main_pool in
  let r := kill_actor env ref0 true world0 in
  snd r = Raise (ValueError "Cannot kill actor on main pool") /\
  sent (fst r)
  = [(pool, ControlMessage 0 pool get_config (PyStr "main_pool_address"));
     (pool, ActorRefMessage 1 ref0)] /\
  sent (fst r) <> sent world0.
Proof. vm_compute. repeat split; discriminate. Qed.

(** C3, amended.  When the pool of the reference reports its main pool
    address and the reference resolves to that very address, [kill_actor]
    raises [ValueError] whatever [force] is; the only control message it
    has sent is the address query -- no stop message. *)
Theorem kill_actor_on_main_pool_raises env actor_ref_ force w :
  let query :=
    ControlMessage (next_message_id w) (address actor_ref_) get_config
                   (PyStr "main_pool_address") in
  forall i main_address w2 real,
    reply env (address actor_ref_) query
    = Ret (ResultMessage i (PyStr main_address)) ->
    actor_ref env actor_ref_
              (fst (get_main_pool_address env (address actor_ref_) w))
    = (w2, Ret (PyActorRef real)) ->
    address real = main_address ->
    kill_actor env actor_ref_ force w
    = (w2, Raise (ValueError "Cannot kill actor on main pool")) /\
    exists rest,
      sent w2 = sent w ++ (address actor_ref_, query) :: rest /\
      Forall (fun am => is_control (snd am) = false) rest.
Proof.
  intros query i main_address w2 real Hq Hres Hmain.
  pose proof (actor_ref_sends env actor_ref_
                (fst (get_main_pool_address env (address actor_ref_) w))) as Hs.
  rewrite Hres in Hs. cbn [fst] in Hs.
  revert Hres Hs.
  unfold kill_actor, bind at 1.
  unfold get_main_pool_address, bind, new_message_id, _call, dispatch,
    modify, lift. cbn. fold query. rewrite Hq. cbn.
  intros Hres (rest & Hs & Hall). rewrite Hres. cbn.
  rewrite Hmain, String.eqb_refl. split; [reflexivity|].
  exists rest. split; auto. now rewrite Hs, <- app_assoc.
Qed.

Lemma kill_actor_on_main_pool_raises_witness :
  let env := pools_env main_pool in
  reply env (address ref0)
        (ControlMessage 0 (address ref0) get_config (PyStr "main_pool_address"))
  = Ret (ResultMessage 0 (PyStr main_pool)) /\
  snd (kill_actor env ref0 true world0)
  = Raise (ValueError "Cannot kill actor on main pool") /\
  snd (kill_actor env ref0 false world0)
  = Raise (ValueError "Cannot kill actor on main pool").
Proof.
  intros env. split; [reflexivity|].
  destruct (@kill_actor_on_main_pool_raises env ref0 true world0 0 main_pool
              _ {| address := main_pool; uid := uid ref0 |}
              eq_refl eq_refl eq_refl) as [Ht _].
  destruct (@kill_actor_on_main_pool_raises env ref0 false world0 0 main_pool
              _ {| address := main_pool; uid := uid ref0 |}
              eq_refl eq_refl eq_refl) as [Hf _].
  rewrite Ht, Hf. split; reflexivity.
Defined.

(** C7.  Called with the address itself as main address,
    [wait_actor_pool_recovered] returns at once and leaves the world as it
    is; when it has to fetch the main address and that is the address
    itself, the query is the only message it sends. *)
Theorem wait_actor_pool_recovered_main_pool env address w :
  wait_actor_pool_recovered env address (Some address) w = (w, Ret tt) /\
  (forall i,
      let query :=
        ControlMessage (next_message_id w) address get_config
                       (PyStr "main_pool_address") in
      reply env address query = Ret (ResultMessage i (PyStr address)) ->
      wait_actor_pool_recovered env address None w
      = ({| next_message_id := S (next_message_id w);
            sent := sent w ++ [(address, query)] |}, Ret tt)).
Proof.
  split.
  - unfold wait_actor_pool_recovered, bind, ret. cbn.
    now rewrite String.eqb_refl.
  - intros i query Hq.
    unfold wait_actor_pool_recovered, get_main_pool_address, bind,
      new_message_id, _call, dispatch, modify, lift, ret. cbn.
    fold query. rewrite Hq. cbn. now rewrite String.eqb_refl.
Qed.

Lemma wait_actor_pool_recovered_main_pool_witness :
  let env := pools_env main_pool in
  reply env main_pool
        (ControlMessage 0 main_pool get_config (PyStr "main_pool_address"))
  = Ret (ResultMessage 0 (PyStr main_pool)) /\
  wait_actor_pool_recovered env main_pool (Some main_pool) world0
  = (world0, Ret tt) /\
  sent (fst (wait_actor_pool_recovered env main_pool None world0))
  = [(main_pool,
      ControlMessage 0 main_pool get_config (PyStr "main_pool_address"))].
Proof.
  intros env.
  destruct (@wait_actor_pool_recovered_main_pool env main_pool world0)
    as [Hsupplied Hfetched].
  split; [reflexivity|]. split; [exact Hsupplied|].
  rewrite (Hfetched 0 eq_refl). reflexivity.
Defined.

End ContextFacts.

(** ** Dictionaries keyed by a type with a decidable equality *)

Section DictEqFacts.
Variables (K V : Type) (eqb : K -> K -> bool).
Hypothesis eqb_eq : forall a b, eqb a b = true <-> a = b.

Lemma dict_get_set_eq (d : dict K V) k v :
  dict_get eqb (dict_set eqb d k v) k = Some v.
Proof. apply dict_get_set_same. intros a. now apply eqb_eq. Qed.

Lemma dict_get_set_other (d : dict K V) k k' v :
  k <> k' -> dict_get eqb (dict_set eqb d k v) k' = dict_get eqb d k'.
Proof.
  intros Hne. induction d as [|[k0 v0] d IH]; simpl.
  - destruct (eqb k k') eqn:E; auto. apply eqb_eq in E. contradiction.
  - destruct (eqb k0 k) eqn:E; simpl.
    + apply eqb_eq in E; subst k0.
      destruct (eqb k k') eqn:E'; auto. apply eqb_eq in E'. contradiction.
    + now rewrite IH.
Qed.

Lemma dict_get_del_other (d : dict K V) k k' :
  k <> k' -> dict_get eqb (dict_del eqb d k) k' = dict_get eqb d k'.
Proof.
  intros Hne. unfold dict_del. induction d as [|[k0 v0] d IH]; simpl; auto.
  destruct (eqb k0 k) eqn:E; simpl.
  - apply eqb_eq in E; subst k0.
    destruct (eqb k k') eqn:E'; auto. apply eqb_eq in E'. contradiction.
  - now rewrite IH.
Qed.

Lemma dict_del_set_absent (d : dict K V) k v :
  dict_get eqb d k = None -> dict_del eqb (dict_set eqb d k v) k = d.
Proof.
  unfold dict_del. induction d as [|[k0 v0] d IH]; simpl.
  - intros _. rewrite (proj2 (eqb_eq k k) eq_refl). reflexivity.
  - destruct (eqb k0 k) eqn:E; [discriminate|]. simpl. rewrite E. simpl.
    intros H. now rewrite IH.
Qed.

Lemma dict_keys_set_present (d : dict K V) k v v0 :
  dict_get eqb d k = Some v0 ->
  dict_keys (dict_set eqb d k v) = dict_keys d.
Proof.
  unfold dict_keys. induction d as [|[k1 v1] d IH]; simpl; [discriminate|].
  destruct (eqb k1 k) eqn:E; simpl; auto.
  intros H. now rewrite IH.
Qed.
End DictEqFacts.

(** ** [build_pool_kwargs] *)

Module BackendFacts.
Import Backend.









Lemma sget_del_other (d : dict string pyval) k k' :
  k <> k' ->
  dict_get String.eqb (dict_del String.eqb d k) k' = dict_get String.eqb d k'.
Proof. apply dict_get_del_other, String.eqb_eq. Qed.


(** X2.  When IO processes are requested but one of the four per-process
    entries is missing, [build_pool_kwargs] raises [KeyError] before any
    list is touched: [kwargs] has only lost [n_io_process]. *)
Theorem build_pool_kwargs_missing_entry n k kwargs key :
  dict_get String.eqb kwargs "n_io_process" = Some (PyInt k) ->
  k <> 0%Z ->
  In key ["labels"; "envs"; "external_address_schemes";
          "enable_internal_addresses"] ->
  dict_get String.eqb kwargs key = None ->
  build_pool_kwargs n kwargs
  = (dict_del String.eqb kwargs "n_io_process", Raise KeyError).
Proof.
  intros Hn Hk Hin Hnone.
  unfold build_pool_kwargs. rewrite Hn.
  assert (Ht : py_truthy (PyInt k) = true)
    by (cbn; destruct (Z.eqb_spec k 0); [contradiction|reflexivity]).
  rewrite Ht. cbn [py_add as_int].
  set (kw := dict_del String.eqb kwargs "n_io_process").
  assert (Hnone' : dict_get String.eqb kw key = None).
  { subst kw. rewrite sget_del_other; auto.
    intros <-. simpl in Hin. intuition discriminate. }
  unfold bind, lookup.
  simpl in Hin. destruct Hin as [<-|[<-|[<-|[<-|[]]]]];
    repeat match goal with
           | |- context [dict_get String.eqb kw ?q] =>
               first [rewrite Hnone'
                     |destruct (dict_get String.eqb kw q)];
               try reflexivity
           end.
Qed.








Lemma build_pool_kwargs_missing_entry_witness :
  build_pool_kwargs 2 [("n_io_process", PyInt 1); ("labels", PyList [])]
  = ([("labels", PyList [])], Raise KeyError).
Proof.
  apply (@build_pool_kwargs_missing_entry 2 1
           [("n_io_process", PyInt 1); ("labels", PyList [])] "envs").
  - reflexivity.
  - discriminate.
  - simpl; auto.
  - reflexivity.
Defined.


End BackendFacts.

(** ** More on dictionaries and on equality with text *)

Section DictKeyFacts.
Variables (K V : Type) (eqb : K -> K -> bool).

Lemma dict_get_set_refl (d : dict K V) k v :
  eqb k k = true -> dict_get eqb (dict_set eqb d k v) k = Some v.
Proof.
  intros Hk. induction d as [|[k' v'] d IH]; simpl.
  - now rewrite Hk.
  - destruct (eqb k' k) eqn:E; simpl; rewrite E; auto.
Qed.

Lemma dict_get_set_present (d : dict K V) k v v0 :
  dict_get eqb d k = Some v0 -> dict_get eqb (dict_set eqb d k v) k = Some v.
Proof.
  induction d as [|[k' v'] d IH]; simpl; [discriminate|].
  destruct (eqb k' k) eqn:E; simpl; rewrite E; auto.
Qed.

Lemma dict_set_length (d : dict K V) k v :
  List.length (dict_set eqb d k v) <= S (List.length d).
Proof.
  induction d as [|[k' v'] d IH]; simpl; auto.
  destruct (eqb k' k); simpl; lia.
Qed.
End DictKeyFacts.

Lemma py_eq_str x s : py_eq x (PyStr s) = true <-> x = PyStr s.
Proof.
  destruct x; cbn; split; try discriminate.
  - intros H. apply String.eqb_eq in H. now subst.
  - intros [= ->]. apply String.eqb_refl.
Qed.

(** In a dictionary of values, assigning to one text key leaves the other
    text keys as they are. *)
Lemma py_dict_get_set_other (d : dict pyval pyval) s s' v :
  s <> s' ->
  dict_get py_eq (dict_set py_eq d (PyStr s) v) (PyStr s')
  = dict_get py_eq d (PyStr s').
Proof.
  intros Hne. induction d as [|[k0 v0] d IH]; simpl.
  - destruct (String.eqb_spec s s'); [contradiction|reflexivity].
  - destruct (py_eq k0 (PyStr s)) eqn:E; simpl.
    + apply py_eq_str in E. subst k0. cbn.
      destruct (String.eqb_spec s s'); [contradiction|reflexivity].
    + now rewrite IH.
Qed.

(** ** More on [_CallStats] and the registry *)

Module ProfilingMore.
Import Profiling Examples.

Lemma call_key_eqb_refl u name :
  call_key_eqb (u, PyStr name) (u, PyStr name) = true.
Proof. unfold call_key_eqb. cbn. now rewrite !String.eqb_refl. Qed.

(** X4.  Every call of a method (named by text) on an actor is counted:
    with a numeric threshold, [collect] returns normally and the count of
    [(uid, method_name)] is one more than before, an uncounted pair
    counting as 0 -- whether the call is slow or not, ordered or not. *)
Theorem collect_counts_every_call rt message duration self r c name t n :
  actor_ref_of message = Ret r ->
  content_of message = Ret c ->
  getitem0 c = Ret (PyStr name) ->
  __get__ rt slow_calls_duration_threshold (_options self) = Ret t ->
  as_num t = Some n ->
  snd (collect rt message duration self) = Ret tt /\
  dict_get call_key_eqb (_call_counter (fst (collect rt message duration self)))
           (uid r, PyStr name)
  = Some (match dict_get call_key_eqb (_call_counter self) (uid r, PyStr name) with
          | Some count => count + 1
          | None => 1
          end)%Z.
Proof.
  intros Hr Hc Hc0 Ht Hn.
  destruct (@CallStatsFacts.collect_returns_and_counts
              rt message duration self r c (PyStr name) t n Hr Hc Hc0 eq_refl Ht Hn)
    as [R C].
  split; [exact R|]. rewrite C. unfold counter_inc.
  rewrite dict_get_set_refl by apply call_key_eqb_refl.
  destruct (dict_get call_key_eqb (_call_counter self) (uid r, PyStr name));
    reflexivity.
Qed.

Lemma collect_counts_every_call_witness :
  dict_get call_key_eqb
           (_call_counter
              (fst (collect runtime (send_of (call_content 7)) 7 ten_slow_calls)))
           ("actor", PyStr "method") = Some 11%Z.
Proof.
  destruct (@collect_counts_every_call runtime (send_of (call_content 7)) 7
              ten_slow_calls ref0 (call_content 7) "method" (PyInt 1) 1
              eq_refl eq_refl eq_refl eq_refl eq_refl) as [_ C].
  exact C.
Defined.

(** X5.  A call faster than the threshold is counted but leaves the list
    of slow calls as it is. *)
Theorem collect_below_threshold_keeps_slow_calls
        rt message duration self r c c0 t n :
  actor_ref_of message = Ret r ->
  content_of message = Ret c ->
  getitem0 c = Ret c0 ->
  hashable c0 = true ->
  __get__ rt slow_calls_duration_threshold (_options self) = Ret t ->
  as_num t = Some n ->
  Qltb duration n = true ->
  collect rt message duration self
  = (set_call_counter (counter_inc (_call_counter self) (uid r, c0)) self, Ret tt).
Proof.
  intros Hr Hc Hc0 Hh Ht Hn Hlt.
  unfold collect, bind, lift, ret, raise, modify, get.
  rewrite Hr, Hc, Hc0, Hh. cbv beta iota zeta.
  cbn [_options set_call_counter]. rewrite Ht.
  assert (E : py_lt (PyFloat duration) t = Ret (Qltb duration n)).
  { destruct t; simpl in Hn; try discriminate; inversion Hn; reflexivity. }
  rewrite E, Hlt. reflexivity.
Qed.

Lemma collect_below_threshold_keeps_slow_calls_witness :
  _slow_calls (fst (collect runtime (send_of (call_content 0)) (1 # 2) ten_slow_calls))
  = _slow_calls ten_slow_calls.
Proof.
  rewrite (@collect_below_threshold_keeps_slow_calls runtime
             (send_of (call_content 0)) (1 # 2) ten_slow_calls ref0
             (call_content 0) (PyStr "method") (PyInt 1) 1
             eq_refl eq_refl eq_refl eq_refl eq_refl eq_refl eq_refl).
  reflexivity.
Defined.

(** X6.  While fewer than ten slow calls are held, a call at or above the
    threshold whose tuple can be compared with those it meets in the heap
    is added to the list, which keeps all it held. *)
Theorem collect_records_slow_call_with_room
        rt message duration self r c c0 t n :
  actor_ref_of message = Ret r ->
  content_of message = Ret c ->
  getitem0 c = Ret c0 ->
  hashable c0 = true ->
  __get__ rt slow_calls_duration_threshold (_options self) = Ret t ->
  as_num t = Some n ->
  Qltb duration n = false ->
  List.length (_slow_calls self) < 10 ->
  let sample := {| sc_duration := duration; sc_uid := uid r;
                   sc_address := address r; sc_content := c |} in
  snd (heappush slow_call_lt (_slow_calls self) sample) = Ret tt ->
  Permutation (sample :: _slow_calls self)
              (_slow_calls (fst (collect rt message duration self))).
Proof.
  intros Hr Hc Hc0 Hh Ht Hn Hlt Hroom sample Hpush.
  unfold collect, bind, lift, ret, raise, modify, get.
  rewrite Hr, Hc, Hc0, Hh. cbv beta iota zeta.
  cbn [_options set_call_counter]. rewrite Ht.
  assert (E : py_lt (PyFloat duration) t = Ret (Qltb duration n)).
  { destruct t; simpl in Hn; try discriminate; inversion Hn; reflexivity. }
  rewrite E, Hlt. fold sample.
  apply (@CallStatsFacts.insert_slow_call_with_room sample
           {| _options := _options self;
              _call_counter := counter_inc (_call_counter self) (uid r, c0);
              _slow_calls := _slow_calls self |}); assumption.
Qed.

Lemma collect_records_slow_call_with_room_witness :
  map sc_duration
      (_slow_calls (fst (collect runtime (send_of (call_content 3)) 3
                                 (collected [5; 4]%Z))))
  = map inject_Z [3; 5; 4]%Z /\
  Permutation
    ({| sc_duration := 3; sc_uid := "actor"; sc_address := address ref0;
        sc_content := call_content 3 |} :: _slow_calls (collected [5; 4]%Z))
    (_slow_calls (fst (collect runtime (send_of (call_content 3)) 3
                               (collected [5; 4]%Z)))).
Proof.
  split; [reflexivity|].
  apply (@collect_records_slow_call_with_room runtime (send_of (call_content 3)) 3
           (collected [5; 4]%Z) ref0 (call_content 3) (PyStr "method") (PyInt 1) 1);
    try reflexivity.
  vm_compute. lia.
Defined.

Lemma collect_each_invariant rt message duration stats :
  dict_keys (fst (collect_each rt message duration stats)) = dict_keys stats /\
  (Forall (fun kv => List.length (_slow_calls (snd kv)) <= 10) stats ->
   Forall (fun kv => List.length (_slow_calls (snd kv)) <= 10)
          (fst (collect_each rt message duration stats))).
Proof.
  induction stats as [|[task_id s] stats [IHk IHb]]; [split; auto|].
  cbn [collect_each].
  pose proof (@CallStatsFacts.collect_slow_calls_bounded rt message duration s) as B.
  destruct (collect rt message duration s) as [s' [[]|e]].
  - destruct (collect_each rt message duration stats) as [rest' r].
    cbn in *. split; [now rewrite IHk|].
    intros H. inversion H; subst. constructor; auto.
  - cbn in *. split; [reflexivity|].
    intros H. inversion H; subst. constructor; auto.
Qed.

(** X7.  However [collect_actor_call] ends -- also when a [collect] raises
    midway -- it registers and unregisters nothing: the trees, the debug
    tasks and the task ids with statistics are as before, and every
    task's list of slow calls still holds at most ten entries if it did. *)
Theorem collect_actor_call_keeps_tasks_and_bound rt message duration self :
  let self' := fst (collect_actor_call rt message duration self) in
  _data self' = _data self /\
  _debug_task self' = _debug_task self /\
  dict_keys (_call_stats self') = dict_keys (_call_stats self) /\
  (Forall (fun kv => List.length (_slow_calls (snd kv)) <= 10) (_call_stats self) ->
   Forall (fun kv => List.length (_slow_calls (snd kv)) <= 10) (_call_stats self')).
Proof.
  unfold collect_actor_call.
  destruct (_call_stats self) as [|kv stats] eqn:E.
  - cbn. rewrite E. repeat split; auto.
  - destruct (is_send_or_tell message).
    + destruct (collect_each_invariant rt message duration (kv :: stats)) as [K B].
      destruct (collect_each rt message duration (kv :: stats)) as [stats' r].
      cbn [fst _data _debug_task _call_stats] in *. repeat split; auto.
    + cbn. rewrite E. repeat split; auto.
Qed.

Lemma insert_reverse_perm {A} (gtb : A -> A -> bool) x l :
  Permutation (x :: l) (insert_reverse gtb x l).
Proof.
  induction l as [|y l IH]; simpl; auto.
  destruct (gtb y x); auto.
  eapply perm_trans; [apply perm_swap|]. now constructor.
Qed.

Lemma sorted_reverse_perm {A} (gtb : A -> A -> bool) l :
  Permutation l (sorted_reverse gtb l).
Proof.
  induction l as [|x l IH]; simpl; auto.
  eapply perm_trans; [|apply insert_reverse_perm]. now constructor.
Qed.

Lemma render_most_calls_length rt l : forall acc m,
  render_most_calls rt l acc = Ret m ->
  List.length m <= List.length acc + List.length l.
Proof.
  induction l as [|[[u name] count] l IH]; intros acc m; cbn.
  - intros [= <-]. lia.
  - destruct (decode_utf8 rt u) as [u'|]; cbn; [|discriminate].
    intros H. apply IH in H.
    match type of H with context [dict_set py_eq acc ?k ?v] =>
      pose proof (dict_set_length py_eq acc k v) end.
    lia.
Qed.

Lemma render_slow_calls_spec rt l : forall acc sl,
  render_slow_calls rt l acc = Ret sl ->
  List.length sl <= List.length acc + List.length l /\
  Forall (fun c => is_ret (unpack4 (sc_content c)) = true) l.
Proof.
  induction l as [|c l IH]; intros acc sl; cbn.
  - intros [= <-]. split; [lia|constructor].
  - destruct (unpack4 (sc_content c)) as [[[[name batch] args] kwargs]|] eqn:U;
      cbn; [|discriminate].
    destruct (decode_utf8 rt (sc_uid c)) as [u|]; cbn; [|discriminate].
    intros H. apply IH in H. destruct H as [L F].
    match type of L with context [dict_set py_eq acc ?k ?v] =>
      pose proof (dict_set_length py_eq acc k v) end.
    split; [lia|]. constructor; auto. now rewrite U.
Qed.

Lemma to_dict_entries rt self d :
  to_dict rt self = Ret d ->
  exists most_calls slow_calls,
    d = [(PyStr "most_calls", PyDict most_calls);
         (PyStr "slow_calls", PyDict slow_calls)] /\
    List.length most_calls <= 10 /\
    List.length slow_calls <= List.length (_slow_calls self).
Proof.
  unfold to_dict.
  destruct (render_most_calls rt _ []) as [m|] eqn:Hm; cbn; [|discriminate].
  destruct (render_slow_calls rt _ []) as [sl|] eqn:Hs; cbn; [|discriminate].
  intros [= <-]. exists m, sl. split; [reflexivity|].
  apply render_most_calls_length in Hm.
  apply render_slow_calls_spec in Hs. destruct Hs as [Hs _].
  unfold most_common in Hm. rewrite length_firstn in Hm.
  rewrite <- (Permutation_length (sorted_reverse_perm _ (_slow_calls self))) in Hs.
  change (List.length (@nil (pyval * pyval))) with 0 in Hm, Hs.
  split; lia.
Qed.

(** X8.  A snapshot that [to_dict] returns has exactly the two entries
    [most_calls] and [slow_calls], with at most ten most-called methods and
    no more slow calls than are held. *)
Theorem to_dict_shape rt self d :
  to_dict rt self = Ret d ->
  exists most_calls slow_calls,
    d = [(PyStr "most_calls", PyDict most_calls);
         (PyStr "slow_calls", PyDict slow_calls)] /\
    List.length most_calls <= 10 /\
    List.length slow_calls <= List.length (_slow_calls self).
Proof. apply to_dict_entries. Qed.

Lemma to_dict_shape_witness :
  exists most_calls slow_calls,
    to_dict runtime ten_slow_calls
    = Ret [(PyStr "most_calls", PyDict most_calls);
           (PyStr "slow_calls", PyDict slow_calls)] /\
    List.length most_calls <= 10 /\ List.length slow_calls <= 10.
Proof.
  destruct (to_dict runtime ten_slow_calls) as [d|] eqn:E;
    [|vm_compute in E; discriminate].
  destruct (@to_dict_shape runtime ten_slow_calls d E) as (m & sl & -> & Hm & Hs).
  exists m, sl. repeat split; auto.
Defined.

(** X9.  [to_dict] returns only if the content of every slow call held
    unpacks into exactly four items; [collect] does not check this when it
    records the call. *)
Theorem to_dict_needs_four_item_contents rt self d :
  to_dict rt self = Ret d ->
  Forall (fun c => exists name batch args kwargs,
                     iter_items (sc_content c) = Ret [name; batch; args; kwargs])
         (_slow_calls self).
Proof.
  unfold to_dict.
  destruct (render_most_calls rt _ []) as [m|]; cbn; [|discriminate].
  destruct (render_slow_calls rt _ []) as [sl|] eqn:Hs; cbn; [|discriminate].
  intros _. apply render_slow_calls_spec in Hs. destruct Hs as [_ F].
  eapply Permutation_Forall in F;
    [|apply Permutation_sym, sorted_reverse_perm].
  eapply Forall_impl; [|exact F]. cbn. intros c Hc.
  unfold unpack4 in Hc.
  destruct (iter_items (sc_content c)) as [[|x1 [|x2 [|x3 [|x4 [|x5 l]]]]]|];
    try discriminate.
  eauto.
Qed.

Lemma to_dict_needs_four_item_contents_witness :
  (exists d, to_dict runtime ten_slow_calls = Ret d) /\
  Forall (fun c => exists name batch args kwargs,
                     iter_items (sc_content c) = Ret [name; batch; args; kwargs])
         (_slow_calls ten_slow_calls) /\
  snd (collect runtime unorderable1 1 (new_CallStats [])) = Ret tt /\
  to_dict runtime one_slow_call = Raise (ValueError "unpack").
Proof.
  destruct (to_dict runtime ten_slow_calls) as [d|] eqn:E;
    [|vm_compute in E; discriminate].
  split; [eauto|].
  split; [exact (@to_dict_needs_four_item_contents runtime ten_slow_calls d E)|].
  split; reflexivity.
Defined.

(** X10.  [pop] is not undone by a failing snapshot: when [to_dict] raises
    for a registered task, [pop] raises the same exception, and the task's
    entries are removed and its debug task cancelled all the same. *)
Theorem pop_raising_snapshot_still_unregisters rt task_id p tree stats e :
  dict_get String.eqb (_data (registry p)) task_id = Some tree ->
  dict_get String.eqb (_call_stats (registry p)) task_id = Some stats ->
  to_dict rt stats = Raise e ->
  pop rt task_id p = (popped task_id p, Raise e).
Proof.
  intros Hd Hc Hs.
  unfold pop, bind, get, modify, ret, lift, cancel_task,
    set_debug_task, set_data, set_call_stats, popped.
  destruct (dict_get String.eqb (_debug_task (registry p)) task_id);
    cbn; rewrite Hd, Hc; cbn; rewrite Hs; reflexivity.
Qed.

Lemma pop_raising_snapshot_still_unregisters_witness :
  let p := {| registry :=
                {| _data := [("task", empty_tree)];
                   _call_stats := [("task", one_slow_call)];
                   _debug_task := [("task", 0)] |};
              spawned := 1; cancelled := [] |} in
  pop runtime "task" p
  = ({| registry := new_ProfilingData; spawned := 1; cancelled := [0] |},
     Raise (ValueError "unpack")).
Proof.
  intros p.
  rewrite (@pop_raising_snapshot_still_unregisters runtime "task" p
             empty_tree one_slow_call (ValueError "unpack")
             eq_refl eq_refl eq_refl).
  reflexivity.
Defined.



(** X12.  Registering a task that has no entry and popping it at once
    gives back the empty six-section tree and leaves the registry as it
    was before the [init]. *)
Theorem init_then_pop_restores_registry rt task_id options p :
  dict_get String.eqb (_data (registry p)) task_id = None ->
  dict_get String.eqb (_call_stats (registry p)) task_id = None ->
  dict_get String.eqb (_debug_task (registry p)) task_id = None ->
  snd (init rt task_id options p) = Ret tt ->
  let p1 := fst (init rt task_id options p) in
  snd (pop rt task_id p1) = Ret (Some empty_tree) /\
  registry (fst (pop rt task_id p1)) = registry p.
Proof.
  intros Hd Hc Ht.
  unfold init, bind, lift, modify, ret, create_task.
  destruct (_ProfilingOptions options) as [opts|]; [|discriminate].
  destruct (__get__ rt debug_interval_seconds opts) as [interval|];
    [|discriminate].
  intros _.
  assert (Sd : forall (V : Type) (d : dict string V) v,
             dict_get String.eqb (dict_set String.eqb d task_id v) task_id = Some v)
    by (intros; apply dict_get_set_eq, String.eqb_eq).
  assert (Dd : forall (V : Type) (d : dict string V) v,
             dict_get String.eqb d task_id = None ->
             dict_del String.eqb (dict_set String.eqb d task_id v) task_id = d)
    by (intros; apply dict_del_set_absent; [apply String.eqb_eq|assumption]).
  destruct (is_none interval);
    unfold pop, bind, get, modify, ret, lift, cancel_task,
      set_debug_task, set_data, set_call_stats;
    cbn; rewrite ?Sd, ?Ht; cbn; rewrite ?Sd; cbn;
    rewrite ?Dd by assumption;
    rewrite ?dict_del_absent by assumption;
    destruct p as [[d c t] s l]; split; reflexivity.
Qed.

Lemma init_then_pop_restores_registry_witness :
  let p1 := fst (init runtime "other"
                      (PyDict [(PyStr "debug_interval_seconds", PyInt 1)])
                      debugged_task) in
  snd (pop runtime "other" p1) = Ret (Some empty_tree) /\
  registry (fst (pop runtime "other" p1)) = registry debugged_task.
Proof.
  apply (@init_then_pop_restores_registry runtime "other"
           (PyDict [(PyStr "debug_interval_seconds", PyInt 1)]) debugged_task);
    reflexivity.
Defined.

(** X13.  [init] and [pop] of one task, however they end, leave the
    entries of every other task -- tree, statistics and debug task --
    untouched. *)
Theorem init_and_pop_leave_other_tasks rt task_id other options p :
  other <> task_id ->
  Examples2.same_task_entries other p (fst (init rt task_id options p)) /\
  Examples2.same_task_entries other p (fst (pop rt task_id p)).
Proof.
  intros Hne.
  assert (Hne' : task_id <> other) by congruence.
  assert (So : forall (V : Type) (d : dict string V) v,
             dict_get String.eqb (dict_set String.eqb d task_id v) other
             = dict_get String.eqb d other)
    by (intros; apply dict_get_set_other; [apply String.eqb_eq|assumption]).
  assert (Do : forall (V : Type) (d : dict string V),
             dict_get String.eqb (dict_del String.eqb d task_id) other
             = dict_get String.eqb d other)
    by (intros; apply dict_get_del_other; [apply String.eqb_eq|assumption]).
  unfold Examples2.same_task_entries. split.
  - unfold init, bind, lift, modify, ret, create_task.
    destruct (_ProfilingOptions options) as [opts|]; [|auto].
    destruct (__get__ rt debug_interval_seconds opts) as [interval|]; [|auto].
    destruct (is_none interval); cbn; rewrite ?So; auto.
  - unfold pop, bind, get, modify, ret, lift, raise, cancel_task,
      set_debug_task, set_data, set_call_stats.
    destruct (dict_get String.eqb (_debug_task (registry p)) task_id);
      destruct (dict_get String.eqb (_data (registry p)) task_id);
      cbn; try (rewrite ?Do; auto; fail);
      destruct (dict_get String.eqb (_call_stats (registry p)) task_id) as [st|];
      cbn; try (rewrite ?Do; auto; fail);
      destruct (to_dict rt st); cbn; rewrite ?Do; auto.
Qed.

Lemma init_and_pop_leave_other_tasks_witness :
  dict_get String.eqb
    (_call_stats (registry (fst (pop runtime "task-a"
       {| registry := two_tasks; spawned := O; cancelled := [] |}))))
    "task-b"
  = dict_get String.eqb (_call_stats two_tasks) "task-b".
Proof.
  destruct (@init_and_pop_leave_other_tasks runtime "task-a" "task-b" PyNone
              {| registry := two_tasks; spawned := O; cancelled := [] |})
    as [_ (_ & H & _)].
  - discriminate.
  - exact H.
Defined.

(** X14.  The validation of [init] rejects, with [ValueError] and with the
    process unchanged, a mapping that has a key outside the namespace of
    the options class, and a value that is neither a mapping nor equal to
    [True], [False] or [None]. *)
Theorem init_rejects_invalid_options rt task_id options p :
  (exists d k, options = PyDict d /\ In k (dict_keys d) /\
               existsb (fun n => py_eq k (PyStr n)) class_dict_keys = false) \/
  ((forall d, options <> PyDict d) /\
   py_eq options (PyBool true) = false /\
   py_eq options (PyBool false) = false /\
   py_eq options PyNone = false) ->
  init rt task_id options p
  = (p, Raise (ValueError "Invalid profiling options")).
Proof.
  intros [(d & k & -> & Hin & Hk)|(Hd & H1 & H2 & H3)].
  - eapply OptionsFacts.init_rejects_unknown_key; eauto.
  - now apply OptionsFacts.init_rejects_other_values.
Qed.

Lemma init_rejects_invalid_options_witness :
  init runtime "task" (PyDict [(PyStr "debug_interval", PyInt 1)]) process0
  = (process0, Raise (ValueError "Invalid profiling options")) /\
  init runtime "task" (PyInt 2) process0
  = (process0, Raise (ValueError "Invalid profiling options")) /\
  snd (init runtime "task" (PyInt 1) process0) = Ret tt.
Proof.
  split; [|split].
  - apply init_rejects_invalid_options. left.
    exists [(PyStr "debug_interval", PyInt 1)], (PyStr "debug_interval").
    split; [reflexivity|]. split; [simpl; auto|reflexivity].
  - apply init_rejects_invalid_options. right.
    split; [discriminate|]. repeat split; reflexivity.
  - reflexivity.
Defined.

Lemma pop_result_sections
        rt task_id p tree stats snapshot :
  dict_get String.eqb (_data (registry p)) task_id = Some tree ->
  dict_get String.eqb (_call_stats (registry p)) task_id = Some stats ->
  to_dict rt stats = Ret snapshot ->
  exists result,
    snd (pop rt task_id p) = Ret (Some result) /\
    dict_get py_eq result (PyStr "most_calls")
    = dict_get py_eq snapshot (PyStr "most_calls") /\
    dict_get py_eq result (PyStr "slow_calls")
    = dict_get py_eq snapshot (PyStr "slow_calls") /\
    forall name, name <> "most_calls" -> name <> "slow_calls" ->
                 dict_get py_eq result (PyStr name)
                 = dict_get py_eq tree (PyStr name).
Proof.
  intros Hd Hc Hs.
  exists (dict_update py_eq tree snapshot). split.
  - unfold pop, bind, get, modify, ret, lift, cancel_task,
      set_debug_task, set_data, set_call_stats.
    destruct (dict_get String.eqb (_debug_task (registry p)) task_id);
      cbn; rewrite Hd, Hc; cbn; rewrite Hs; reflexivity.
  - destruct (to_dict_entries Hs) as (m & sl & -> & _ & _).
    unfold dict_update. cbn [fold_left fst snd].
    split; [|split].
    + rewrite py_dict_get_set_other by discriminate.
      rewrite dict_get_set_refl by reflexivity. reflexivity.
    + rewrite dict_get_set_refl by reflexivity. reflexivity.
    + intros name N1 N2.
      rewrite !py_dict_get_set_other by congruence. reflexivity.
Qed.

(** X15.  The tree [pop] returns carries the statistics under
    [most_calls] and [slow_calls], whatever the registry held there, and
    every other section (named by text) as the registry held it. *)
Theorem pop_returns_sections_and_statistics
        rt task_id p tree stats snapshot :
  dict_get String.eqb (_data (registry p)) task_id = Some tree ->
  dict_get String.eqb (_call_stats (registry p)) task_id = Some stats ->
  to_dict rt stats = Ret snapshot ->
  exists result,
    snd (pop rt task_id p) = Ret (Some result) /\
    dict_get py_eq result (PyStr "most_calls")
    = dict_get py_eq snapshot (PyStr "most_calls") /\
    dict_get py_eq result (PyStr "slow_calls")
    = dict_get py_eq snapshot (PyStr "slow_calls") /\
    forall name, name <> "most_calls" -> name <> "slow_calls" ->
                 dict_get py_eq result (PyStr name)
                 = dict_get py_eq tree (PyStr name).
Proof. apply pop_result_sections. Qed.

Lemma pop_returns_sections_and_statistics_witness :
  exists result,
    snd (pop runtime "task" debugged_task) = Ret (Some result) /\
    dict_get py_eq result (PyStr "general") = Some (PyDict []) /\
    dict_get py_eq result (PyStr "most_calls")
    = Some (PyDict [(PyStr "actor.method", PyInt 1)]).
Proof.
  destruct (dict_get String.eqb (_call_stats (registry debugged_task)) "task")
    as [stats|] eqn:Hc; [|vm_compute in Hc; discriminate].
  destruct (to_dict runtime stats) as [snapshot|e] eqn:Hs;
    [|vm_compute in Hc; inversion Hc; subst stats; vm_compute in Hs; discriminate].
  destruct (@pop_returns_sections_and_statistics runtime "task" debugged_task
              empty_tree stats snapshot eq_refl Hc Hs)
    as (result & R & M & _ & O).
  exists result. split; [exact R|]. split.
  - rewrite O by discriminate. reflexivity.
  - rewrite M. vm_compute in Hc. inversion Hc; subst stats.
    vm_compute in Hs. inversion Hs; subst snapshot. reflexivity.
Defined.

End ProfilingMore.

(** ** The nested view of the registry *)

Module ViewFacts.
Import Profiling ProfilingView Examples.

Lemma replace_at_not_none path : forall d new,
  is_none d = false -> is_none new = false ->
  is_none (replace_at d path new) = false.
Proof.
  destruct path as [|k path]; intros d new Hd Hn; cbn; auto.
  destruct d; auto. destruct (dict_get py_eq items k); auto.
Qed.

(** What was written under a path is found there again. *)
Lemma descend_replace key : forall d v new,
  descend d key = Ret v -> is_none v = false -> is_none new = false ->
  descend (replace_at d key new) key = Ret new.
Proof.
  induction key as [|k key IH]; intros d v new Hd Hv Hn; [reflexivity|].
  cbn in Hd |- *. unfold py_get in Hd.
  destruct d; try discriminate.
  destruct (hashable k) eqn:Hk; [|discriminate].
  destruct (dict_get py_eq items k) as [child|] eqn:Hc; cbn in Hd.
  - destruct (is_none child) eqn:Hchild;
      [inversion Hd; subst; discriminate|].
    cbn. rewrite Hk. rewrite (dict_get_set_present _ Hc).
    rewrite replace_at_not_none by assumption.
    eapply IH; eauto.
  - inversion Hd; subst; discriminate.
Qed.

Lemma descend_dict_replace key : forall tree v new,
  descend (PyDict tree) key = Ret v -> is_none v = false ->
  exists tree', replace_at (PyDict tree) key (PyDict new) = PyDict tree'.
Proof.
  destruct key as [|k key]; intros tree v new Hd Hv; cbn; eauto.
  destruct (dict_get py_eq tree k); eauto.
Qed.

(** After a target that is a dictionary was mutated through an operator,
    the same item leads to the mutated target. *)
Lemma getitem_write_back self item path target new :
  __getitem__ self item = Ret (ProfilingDataOperator path target) ->
  __getitem__ (write_back self path (PyDict new)) item
  = Ret (ProfilingDataOperator path (PyDict new)).
Proof.
  unfold __getitem__.
  destruct (item_keys item) as [|k key] eqn:Hkeys; [discriminate|].
  unfold data_get.
  destruct (hashable k) eqn:Hk; [|discriminate].
  destruct k as [| | | |task_id| | | | |]; try discriminate.
  destruct (dict_get String.eqb (_data self) task_id) as [tree|] eqn:Ht;
    [|discriminate].
  cbn [is_none].
  destruct (descend (PyDict tree) key) as [v|] eqn:Hd; [|discriminate].
  destruct (is_none v) eqn:Hv; [discriminate|].
  intros [= <- <-].
  destruct (descend_dict_replace new Hd Hv) as [tree' Hr].
  unfold write_back. rewrite Ht, Hr. cbn [_data].
  rewrite (dict_get_set_eq String.eqb_eq). cbn [is_none].
  rewrite <- Hr.
  rewrite (descend_replace (new := PyDict new) Hd Hv eq_refl).
  reflexivity.
Qed.

(** X16.  For a task that is not registered, the view is inert: whatever
    keys follow the task id, [set] and [inc] return without changing the
    registry, [nest] returns the inert operator again, [values] is empty
    and [empty] is true. *)
Theorem view_of_unregistered_task_is_inert self task_id rest key value :
  dict_get String.eqb (_data self) task_id = None ->
  let item := PyTuple (PyStr task_id :: rest) in
  __getitem__ self (PyStr task_id) = Ret DummyOperator /\
  item_set item key value self = (self, Ret tt) /\
  item_inc item key value self = (self, Ret tt) /\
  item_nest item key self = (self, Ret DummyOperator) /\
  item_values self item = Ret [] /\
  item_empty self item = Ret true.
Proof.
  intros Hd item.
  assert (E : __getitem__ self item = Ret DummyOperator)
    by (unfold __getitem__, data_get; cbn; rewrite Hd; reflexivity).
  unfold item_set, item_inc, item_nest, item_values, item_empty.
  rewrite E. repeat split; auto.
  unfold __getitem__, data_get. cbn. rewrite Hd. reflexivity.
Qed.

Lemma view_of_unregistered_task_is_inert_witness :
  item_inc (PyTuple [PyStr "unknown"; PyStr "general"]) (PyStr "x") (PyInt 1)
           two_tasks
  = (two_tasks, Ret tt).
Proof.
  destruct (@view_of_unregistered_task_is_inert two_tasks "unknown"
              [PyStr "general"] (PyStr "x") (PyInt 1) eq_refl)
    as (_ & _ & H & _).
  exact H.
Defined.

(** X17.  [set] through the view writes into the registry: when the item
    leads to a dictionary, [self[item].set(key, value)] returns, the same
    item then leads to that dictionary with [key] assigned, and the
    statistics and debug tasks are untouched. *)
Theorem item_set_is_read_back self item path d key value :
  __getitem__ self item = Ret (ProfilingDataOperator path (PyDict d)) ->
  hashable key = true ->
  let self' := fst (item_set item key value self) in
  snd (item_set item key value self) = Ret tt /\
  __getitem__ self' item
  = Ret (ProfilingDataOperator path (PyDict (dict_set py_eq d key value))) /\
  _call_stats self' = _call_stats self /\
  _debug_task self' = _debug_task self.
Proof.
  intros Hg Hk. unfold item_set. rewrite Hg.
  unfold set, py_setitem. rewrite Hk. cbn [fst snd].
  split; [reflexivity|]. split; [eapply getitem_write_back; eauto|].
  unfold write_back.
  destruct path as [|[| | | |task_id| | | | |] path']; auto.
  destruct (dict_get String.eqb (_data self) task_id); auto.
  destruct (replace_at _ _ _); auto.
Qed.

(** One task with a counter [general.calls = 2] *)
Lemma item_set_is_read_back_witness :
  let self := registry (fst (init runtime "task" PyNone process0)) in
  let item := PyTuple [PyStr "task"; PyStr "general"] in
  let self' := fst (item_set item (PyStr "calls") (PyInt 2) self) in
  __getitem__ self' item
  = Ret (ProfilingDataOperator [PyStr "task"; PyStr "general"]
                               (PyDict [(PyStr "calls", PyInt 2)])) /\
  item_empty self item = Ret true /\
  item_empty self' item = Ret false.
Proof.
  intros self item self'.
  destruct (@item_set_is_read_back self item [PyStr "task"; PyStr "general"]
              [] (PyStr "calls") (PyInt 2) eq_refl eq_refl) as (_ & H & _).
  split; [exact H|]. split; reflexivity.
Defined.

Lemma item_inc_result self item path d name a :
  __getitem__ self item = Ret (ProfilingDataOperator path (PyDict d)) ->
  (dict_get py_eq d (PyStr name) = None \/
   exists old, dict_get py_eq d (PyStr name) = Some (PyInt old)) ->
  let old := match dict_get py_eq d (PyStr name) with
             | Some (PyInt old) => old
             | _ => 0%Z
             end in
  snd (item_inc item (PyStr name) (PyInt a) self) = Ret tt /\
  exists d',
    __getitem__ (fst (item_inc item (PyStr name) (PyInt a) self)) item
    = Ret (ProfilingDataOperator path (PyDict d')) /\
    dict_get py_eq d' (PyStr name) = Some (PyInt (old + a)).
Proof.
  intros Hg Hold old.
  assert (E : inc (PyDict d) (PyStr name) (PyInt a)
              = Ret (PyDict (dict_set py_eq d (PyStr name) (PyInt (old + a))))).
  { unfold inc, py_get, py_setitem, bind_o. cbn [hashable]. subst old.
    destruct Hold as [->|[o ->]]; reflexivity. }
  unfold item_inc. rewrite Hg, E. cbn [fst snd].
  split; [reflexivity|].
  eexists. split; [eapply getitem_write_back; eauto|].
  apply dict_get_set_refl. cbn. apply String.eqb_refl.
Qed.

(** X18.  [inc] through the view adds to a counter: when the item leads to
    a dictionary in which the key (text) is absent or holds an integer,
    [self[item].inc(key, a)] returns and the same item then leads to a
    dictionary holding the old count (0 if absent) plus [a] under the
    key. *)
Theorem item_inc_adds_to_counter self item path d name a :
  __getitem__ self item = Ret (ProfilingDataOperator path (PyDict d)) ->
  (dict_get py_eq d (PyStr name) = None \/
   exists old, dict_get py_eq d (PyStr name) = Some (PyInt old)) ->
  let old := match dict_get py_eq d (PyStr name) with
             | Some (PyInt old) => old
             | _ => 0%Z
             end in
  snd (item_inc item (PyStr name) (PyInt a) self) = Ret tt /\
  exists d',
    __getitem__ (fst (item_inc item (PyStr name) (PyInt a) self)) item
    = Ret (ProfilingDataOperator path (PyDict d')) /\
    dict_get py_eq d' (PyStr name) = Some (PyInt (old + a)).
Proof. apply item_inc_result. Qed.

Lemma item_inc_adds_to_counter_witness :
  let self := registry (fst (init runtime "task" PyNone process0)) in
  let item := PyTuple [PyStr "task"; PyStr "general"] in
  let self1 := fst (item_inc item (PyStr "calls") (PyInt 2) self) in
  let self2 := fst (item_inc item (PyStr "calls") (PyInt 3) self1) in
  exists d',
    __getitem__ self2 item
    = Ret (ProfilingDataOperator [PyStr "task"; PyStr "general"] (PyDict d')) /\
    dict_get py_eq d' (PyStr "calls") = Some (PyInt 5).
Proof.
  intros self item self1 self2.
  destruct (@item_inc_adds_to_counter self1 item
              [PyStr "task"; PyStr "general"]
              [(PyStr "calls", PyInt 2)] "calls" 3 eq_refl
              (or_intror (ex_intro _ 2%Z eq_refl)))
    as (_ & d' & H & Hd').
  exists d'. split; [exact H|exact Hd'].
Defined.

Lemma descend_app a : forall d b,
  is_none d = false ->
  descend d (a ++ b)
  = match descend d a with
    | Ret v => if is_none v then Ret PyNone else descend v b
    | Raise e => Raise e
    end.
Proof.
  induction a as [|k a IH]; intros d b Hd; cbn.
  - now rewrite Hd.
  - destruct (py_get d k PyNone) as [v|]; auto.
    destruct (is_none v) eqn:Hv; auto.
Qed.

(** The item extended by one key leads to what the target holds there. *)
Lemma getitem_extend self item path d key v :
  __getitem__ self item = Ret (ProfilingDataOperator path (PyDict d)) ->
  hashable key = true ->
  dict_get py_eq d key = Some v -> is_none v = false ->
  __getitem__ self (PyTuple (path ++ [key]))
  = Ret (ProfilingDataOperator (path ++ [key]) v).
Proof.
  unfold __getitem__.
  destruct (item_keys item) as [|k keys] eqn:Hkeys; [discriminate|].
  destruct (data_get self k) as [d0|] eqn:Hdg; [|discriminate].
  destruct (is_none d0) eqn:Hd0; [discriminate|].
  destruct (descend d0 keys) as [t|] eqn:Hd; [|discriminate].
  destruct (is_none t) eqn:Ht; [discriminate|].
  intros [= <- ->] Hk Hv Hnone.
  cbn [item_keys app]. rewrite Hdg, Hd0.
  rewrite descend_app by assumption. rewrite Hd, Ht.
  cbn. unfold py_get. rewrite Hk, Hv, Hnone, Hnone. reflexivity.
Qed.

(** X19.  [nest] through the view, on an item that leads to a dictionary:
    an absent key (text) gets an empty sub-tree, to which the item
    extended by the key leads from then on; a key that holds a dictionary
    is returned as it is, the registry unchanged; a key that holds
    anything else makes [nest] raise [TypeError], the registry
    unchanged. *)
Theorem item_nest_creates_or_returns self item path d name :
  __getitem__ self item = Ret (ProfilingDataOperator path (PyDict d)) ->
  let key := PyStr name in
  let sub := ProfilingDataOperator (path ++ [key]) in
  match dict_get py_eq d key with
  | None =>
      snd (item_nest item key self) = Ret (sub (PyDict [])) /\
      __getitem__ (fst (item_nest item key self)) (PyTuple (path ++ [key]))
      = Ret (sub (PyDict []))
  | Some (PyDict v) => item_nest item key self = (self, Ret (sub (PyDict v)))
  | Some _ => item_nest item key self = (self, Raise TypeError)
  end.
Proof.
  intros Hg key sub. unfold item_nest. rewrite Hg. unfold nest.
  cbn [hashable key].
  destruct (dict_get py_eq d key) as [v|] eqn:Hv.
  - destruct v; try reflexivity.
    unfold write_back.
    assert (Hsame : forall tree, replace_at (PyDict tree) nil (PyDict d) = PyDict d)
      by reflexivity.
    (* the target is written back as it is *)
    revert Hg. unfold __getitem__.
    destruct (item_keys item) as [|k keys] eqn:Hkeys; [discriminate|].
    unfold data_get.
    destruct (hashable k); [|discriminate].
    destruct k as [| | | |task_id| | | | |]; try discriminate.
    destruct (dict_get String.eqb (_data self) task_id) as [tree|] eqn:Ht;
      [|discriminate].
    cbn [is_none].
    destruct (descend (PyDict tree) keys) as [t|] eqn:Hd; [|discriminate].
    destruct (is_none t) eqn:Hn; [discriminate|].
    intros [= <- ->]. rewrite Ht.
    assert (R : replace_at (PyDict tree) keys (PyDict d) = PyDict tree).
    { clear - Hd. revert tree Hd.
      induction keys as [|k keys IH]; intros tree Hd; cbn in *.
      - now inversion Hd.
      - unfold py_get in Hd. destruct (hashable k); [|discriminate].
        destruct (dict_get py_eq tree k) as [child|] eqn:Hc; cbn in Hd.
        + destruct (is_none child) eqn:Hn; [discriminate|].
          destruct keys as [|k' keys'].
          * cbn in *. inversion Hd; subst. f_equal.
            clear - Hc. induction tree as [|[k0 v0] tree IH]; cbn in *;
              [discriminate|].
            destruct (py_eq k0 k); [now inversion Hc|]. now rewrite IH.
          * destruct child; cbn in Hd; try discriminate.
            rewrite (IH _ Hd). f_equal.
            clear - Hc. induction tree as [|[k0 v0] tree IH]; cbn in *;
              [discriminate|].
            destruct (py_eq k0 k); [now inversion Hc|]. now rewrite IH.
        + discriminate. }
    rewrite R. f_equal.
    destruct self as [dt cs tk]. cbn in *. f_equal.
    clear - Ht. induction dt as [|[k0 v0] dt IH]; cbn in *; [discriminate|].
    destruct (String.eqb k0 task_id); [now inversion Ht|]. now rewrite IH.
  - cbn [fst snd]. split; [reflexivity|].
    eapply getitem_extend.
    + eapply getitem_write_back; eauto.
    + reflexivity.
    + apply dict_get_set_refl. cbn. apply String.eqb_refl.
    + reflexivity.
Qed.

Lemma item_nest_creates_or_returns_witness :
  let self := registry (fst (init runtime "task" PyNone process0)) in
  let item := PyStr "task" in
  let self1 := fst (item_nest item (PyStr "bands") self) in
  let self2 := fst (item_set item (PyStr "count") (PyInt 1) self1) in
  snd (item_nest item (PyStr "bands") self)
  = Ret (ProfilingDataOperator [PyStr "task"; PyStr "bands"] (PyDict [])) /\
  __getitem__ self1 (PyTuple [PyStr "task"; PyStr "bands"])
  = Ret (ProfilingDataOperator [PyStr "task"; PyStr "bands"] (PyDict [])) /\
  item_nest item (PyStr "general") self
  = (self, Ret (ProfilingDataOperator [PyStr "task"; PyStr "general"] (PyDict []))) /\
  item_nest item (PyStr "count") self2 = (self2, Raise TypeError).
Proof.
  intros self item self1 self2.
  pose proof (@item_nest_creates_or_returns self item [PyStr "task"]
                empty_tree "bands" eq_refl) as H1.
  pose proof (@item_nest_creates_or_returns self item [PyStr "task"]
                empty_tree "general" eq_refl) as H2.
  destruct (__getitem__ self2 item) as [[|path t]|] eqn:E;
    try (vm_compute in E; discriminate).
  assert (Hp : path = [PyStr "task"]) by (vm_compute in E; congruence).
  subst path.
  destruct t as [| | | | | | | |d|];
    try (vm_compute in E; discriminate).
  pose proof (@item_nest_creates_or_returns self2 item [PyStr "task"]
                d "count" E) as H3.
  assert (Hd : dict_get py_eq d (PyStr "count") = Some (PyInt 1))
    by (vm_compute in E; inversion E; subst d; reflexivity).
  cbn zeta in H3. rewrite Hd in H3.
  destruct H1 as [H1a H1b].
  repeat split; assumption.
Defined.

(** X20.  What is counted through the view comes out of [pop]: after
    [self[task_id, section].inc(name, a)] on a section other than the two
    that carry the statistics, the tree [pop] returns holds, in that
    section, the old count (0 if absent) plus [a]. *)
Theorem inc_is_visible_in_popped_tree
        rt p task_id section d name a stats snapshot :
  let item := PyTuple [PyStr task_id; PyStr section] in
  __getitem__ (registry p) item
  = Ret (ProfilingDataOperator [PyStr task_id; PyStr section] (PyDict d)) ->
  (dict_get py_eq d (PyStr name) = None \/
   exists old, dict_get py_eq d (PyStr name) = Some (PyInt old)) ->
  section <> "most_calls" -> section <> "slow_calls" ->
  dict_get String.eqb (_call_stats (registry p)) task_id = Some stats ->
  to_dict rt stats = Ret snapshot ->
  let old := match dict_get py_eq d (PyStr name) with
             | Some (PyInt old) => old
             | _ => 0%Z
             end in
  let p' := {| registry := fst (item_inc item (PyStr name) (PyInt a) (registry p));
               spawned := spawned p; cancelled := cancelled p |} in
  exists result d',
    snd (pop rt task_id p') = Ret (Some result) /\
    dict_get py_eq result (PyStr section) = Some (PyDict d') /\
    dict_get py_eq d' (PyStr name) = Some (PyInt (old + a)).
Proof.
  intros item Hg Hold N1 N2 Hc Hs old p'.
  destruct (item_inc_result a Hg Hold) as (_ & d' & Hg' & Hd').
  fold item in Hg'. fold old in Hd'.
  (* the statistics are not touched by the view *)
  assert (Hc' : dict_get String.eqb (_call_stats (registry p')) task_id = Some stats).
  { subst p'. cbn [registry]. unfold item_inc. rewrite Hg.
    destruct (inc _ _ _); cbn [fst]; auto.
    unfold write_back. cbn [registry].
    destruct (dict_get String.eqb (_data (registry p)) task_id); auto.
    destruct (replace_at _ _ _); auto. }
  (* the section as the registry holds it after the increment *)
  revert Hg'. unfold __getitem__, data_get. cbn [item_keys item hashable].
  change (registry p') with (fst (item_inc item (PyStr name) (PyInt a) (registry p))) in Hc'.
  destruct (dict_get String.eqb
              (_data (fst (item_inc item (PyStr name) (PyInt a) (registry p))))
              task_id) as [tree'|] eqn:Ht; [|discriminate].
  cbn [is_none descend]. unfold py_get. cbn [hashable].
  destruct (dict_get py_eq tree' (PyStr section)) as [v|] eqn:Hv;
    [|discriminate].
  destruct (is_none v) eqn:Hn; [discriminate|]. rewrite Hn.
  intros [= ->].
  destruct (@ProfilingMore.pop_result_sections rt task_id p' tree' stats snapshot Ht Hc' Hs)
    as (result & R & _ & _ & O).
  exists result, d'. split; [exact R|]. split; [|exact Hd'].
  rewrite O by assumption. exact Hv.
Qed.

Lemma inc_is_visible_in_popped_tree_witness :
  let p := fst (init runtime "task" PyNone process0) in
  let item := PyTuple [PyStr "task"; PyStr "general"] in
  let p' := {| registry := fst (item_inc item (PyStr "calls") (PyInt 2) (registry p));
               spawned := spawned p; cancelled := cancelled p |} in
  exists result d',
    snd (pop runtime "task" p') = Ret (Some result) /\
    dict_get py_eq result (PyStr "general") = Some (PyDict d') /\
    dict_get py_eq d' (PyStr "calls") = Some (PyInt 2).
Proof.
  intros p item p'.
  apply (@inc_is_visible_in_popped_tree runtime p "task" "general" [] "calls" 2
           (new_CallStats [])
           [(PyStr "most_calls", PyDict []); (PyStr "slow_calls", PyDict [])]);
    try reflexivity; try discriminate.
  left; reflexivity.
Defined.

End ViewFacts.

(** ** More on [MarsActorContext] *)

Module ContextMore.
Import Context Examples Examples2.

(** X21.  An actor that does not live on the main pool is killed through
    the main pool: once the pool of the reference has reported its main
    pool address and the reference is resolved to another address,
    [kill_actor] sends one stop message, naming the resolved address and
    carrying [(3.0, force)], to the main pool, and returns what the main
    pool answers (raising the error it carries). *)
Theorem kill_actor_stops_through_main_pool env actor_ref_ force w :
  let query :=
    ControlMessage (next_message_id w) (address actor_ref_) get_config
                   (PyStr "main_pool_address") in
  forall i main_address w2 real,
    reply env (address actor_ref_) query
    = Ret (ResultMessage i (PyStr main_address)) ->
    actor_ref env actor_ref_
              (fst (get_main_pool_address env (address actor_ref_) w))
    = (w2, Ret (PyActorRef real)) ->
    address real <> main_address ->
    let stop_message :=
      ControlMessage (next_message_id w2) (address real) stop
                     (PyTuple [PyFloat 3; PyBool force]) in
    kill_actor env actor_ref_ force w
    = ({| next_message_id := S (next_message_id w2);
          sent := sent w2 ++ [(main_address, stop_message)] |},
       unwrapped (reply env main_address stop_message)).
Proof.
  intros query i main_address w2 real Hq Hres Hne stop_message.
  revert Hres.
  unfold kill_actor, bind at 1.
  unfold get_main_pool_address, bind, new_message_id, _call, dispatch,
    modify, lift. cbn. fold query. rewrite Hq. cbn.
  intros Hres. rewrite Hres. cbn.
  destruct (String.eqb_spec (address real) main_address) as [|_];
    [contradiction|].
  fold stop_message.
  destruct (reply env main_address stop_message) as [[j v|j e]|e]; reflexivity.
Qed.

Lemma kill_actor_stops_through_main_pool_witness :
  let env := pools_env pool in
  kill_actor env ref0 false world0
  = ({| next_message_id := 3;
        sent := [(pool, ControlMessage 0 pool get_config (PyStr "main_pool_address"));
                 (pool, ActorRefMessage 1 ref0);
                 (main_pool, ControlMessage 2 pool stop
                                            (PyTuple [PyFloat 3; PyBool false]))] |},
     Ret PyNone).
Proof.
  intros env.
  rewrite (@kill_actor_stops_through_main_pool env ref0 false world0 0 main_pool
             {| next_message_id := 2;
                sent := [(pool, ControlMessage 0 pool get_config
                                               (PyStr "main_pool_address"));
                         (pool, ActorRefMessage 1 ref0)] |}
             {| address := pool; uid := uid ref0 |}
             eq_refl eq_refl).
  - reflexivity.
  - discriminate.
Defined.

(** X22.  For a pool other than the main pool,
    [wait_actor_pool_recovered] sends one [wait_pool_recovered] message,
    naming the pool, to the main pool, and returns when that is answered
    with a result; an error answer is raised to the caller. *)
Theorem wait_actor_pool_recovered_asks_main_pool env address main_address w :
  address <> main_address ->
  let message :=
    ControlMessage (next_message_id w) address wait_pool_recovered PyNone in
  wait_actor_pool_recovered env address (Some main_address) w
  = ({| next_message_id := S (next_message_id w);
        sent := sent w ++ [(main_address, message)] |},
     match reply env main_address message with
     | Ret (ResultMessage _ _) => Ret tt
     | Ret (ErrorMessage _ cause) => Raise cause
     | Raise e => Raise e
     end).
Proof.
  intros Hne message.
  unfold wait_actor_pool_recovered, bind, ret, new_message_id, _call,
    dispatch, modify, lift. cbn.
  destruct (String.eqb_spec address main_address) as [|_]; [contradiction|].
  fold message.
  destruct (reply env main_address message) as [[j v|j e]|e]; reflexivity.
Qed.

Lemma wait_actor_pool_recovered_asks_main_pool_witness :
  wait_actor_pool_recovered (pools_env pool) pool (Some main_pool) world0
  = ({| next_message_id := 1;
        sent := [(main_pool,
                  ControlMessage 0 pool wait_pool_recovered PyNone)] |},
     Ret tt).
Proof.
  rewrite (@wait_actor_pool_recovered_asks_main_pool (pools_env pool)
             pool main_pool world0).
  - reflexivity.
  - discriminate.
Defined.

(** X23.  [_wait] sends nothing but, at most, one cancel request for the
    message it waits for; when the caller is not cancelled while the
    handle is shielded and the handle was not cancelled itself, [_wait]
    sends nothing and uses no message id. *)
Theorem wait_sends_at_most_one_cancel env future address message w :
  let w' := fst (_wait env future address message w) in
  (sent w' = sent w \/
   sent w' = sent w ++ [(address, CancelMessage (next_message_id w) address
                                                (message_id_of message))]) /\
  (interrupted env (message_id_of message) AtShield = false ->
   holds future <> Raise CancelledError ->
   w' = w).
Proof.
  intros w'. subst w'. split; [apply ContextFacts.wait_sends|].
  intros Hi Hh.
  unfold _wait, try_except, bind, await_handle, cancel, _call, dispatch,
    new_message_id, modify, lift, ret, raise.
  rewrite Hi. cbn.
  destruct (holds future) as [x|e]; cbn.
  - destruct (interrupted env (message_id_of message) AtFinal); reflexivity.
  - destruct e; try congruence; cbn;
      destruct (interrupted env (message_id_of message) AtFinal); reflexivity.
Qed.

Lemma wait_sends_at_most_one_cancel_witness :
  let env := pools_env pool in
  let message := HasActorMessage 0 ref0 in
  fst (_wait env {| holds := reply env pool message |} pool message world0)
  = world0.
Proof.
  intros env message.
  destruct (@wait_sends_at_most_one_cancel env
              {| holds := reply env pool message |} pool message world0)
    as [_ H].
  apply H; [reflexivity|discriminate].
Defined.

(** X24.  [has_actor] and [destroy_actor], in a caller that is not
    cancelled meanwhile, send exactly one message -- the query about the
    reference, to the reference's address -- and return what is answered,
    raising the error an error answer carries. *)
Theorem has_and_destroy_actor_unwrap_the_answer env actor_ref w :
  let id := next_message_id w in
  let w' m := {| next_message_id := S id;
                 sent := sent w ++ [(address actor_ref, m)] |} in
  interrupted env id AtShield = false ->
  interrupted env id AtFinal = false ->
  (reply env (address actor_ref) (HasActorMessage id actor_ref)
   <> Raise CancelledError ->
   has_actor env actor_ref w
   = (w' (HasActorMessage id actor_ref),
      unwrapped (reply env (address actor_ref) (HasActorMessage id actor_ref)))) /\
  (reply env (address actor_ref) (DestroyActorMessage id actor_ref)
   <> Raise CancelledError ->
   destroy_actor env actor_ref w
   = (w' (DestroyActorMessage id actor_ref),
      unwrapped (reply env (address actor_ref) (DestroyActorMessage id actor_ref)))).
Proof.
  intros id w' Hs Hf. subst w'. split; intros Hr.
  - unfold has_actor, _wait, try_except, bind, await_handle, cancel, _call,
      _call_nowait, dispatch, new_message_id, modify, lift, ret, raise.
    cbn. fold id. rewrite Hs, Hf.
    destruct (reply env (address actor_ref) (HasActorMessage id actor_ref))
      as [[j x|j e]|e]; cbn; try reflexivity.
    destruct e; try congruence; reflexivity.
  - unfold destroy_actor, _wait, try_except, bind, await_handle, cancel, _call,
      _call_nowait, dispatch, new_message_id, modify, lift, ret, raise.
    cbn. fold id. rewrite Hs, Hf.
    destruct (reply env (address actor_ref) (DestroyActorMessage id actor_ref))
      as [[j x|j e]|e]; cbn; try reflexivity.
    destruct e; try congruence; reflexivity.
Qed.

Lemma has_and_destroy_actor_unwrap_the_answer_witness :
  has_actor (pools_env pool) ref0 world0
  = ({| next_message_id := 1; sent := [(pool, HasActorMessage 0 ref0)] |},
     Ret PyNone) /\
  destroy_actor (pools_env pool) ref0 world0
  = ({| next_message_id := 1; sent := [(pool, DestroyActorMessage 0 ref0)] |},
     Ret PyNone).
Proof.
  destruct (@has_and_destroy_actor_unwrap_the_answer (pools_env pool) ref0 world0
              eq_refl eq_refl) as [H D].
  split; [rewrite H|rewrite D]; (reflexivity || discriminate).
Defined.

End ContextMore.
